(** * A contact form: validation, submission life cycle and rendering

    Shallow embedding of the [ContactForm] React component
    (components/ContactForm.tsx) and of the small part of the
    JavaScript platform it calls: UTF-16 strings, [String.prototype.trim],
    truthiness, the regular expression [/\S+@\S+\.\S+/], [fetch] responses,
    [JSON.stringify] on an object of three strings. *)

From Stdlib Require Import List NArith Bool Lia String Ascii Arith DecimalString.
Import ListNotations.

(** ** The JavaScript platform *)

Module JS.

Local Open Scope N_scope.

(** A JavaScript string is a sequence of UTF-16 code units. *)
Definition char16 := N.
Definition jsstring := list char16.

(** String literals of the source, written as Rocq strings. *)
Definition lit (s : string) : jsstring :=
  List.map N_of_ascii (list_ascii_of_string s).

Definition string_eqb (a b : jsstring) : bool :=
  if list_eq_dec N.eq_dec a b then true else false.

(** [ToBoolean] on a string: only the empty string is falsy. *)
Definition truthy (s : jsstring) : bool :=
  match s with [] => false | _ :: _ => true end.

(** [ToBoolean] on [string | null]. *)
Definition truthy_opt (s : option jsstring) : bool :=
  match s with None => false | Some s => truthy s end.

(** The code points of WhiteSpace and LineTerminator (ECMA-262, 12.2 and
    12.3): what [trim] strips and what [\s] matches. All of them are in the
    basic plane, so they are single code units. *)
Definition isWhiteSpace (c : char16) : bool :=
  (c =? 0x09) || (c =? 0x0A) || (c =? 0x0B) || (c =? 0x0C) || (c =? 0x0D)
  || (c =? 0x20) || (c =? 0xA0) || (c =? 0x1680)
  || ((0x2000 <=? c) && (c <=? 0x200A))
  || (c =? 0x2028) || (c =? 0x2029) || (c =? 0x202F) || (c =? 0x205F)
  || (c =? 0x3000) || (c =? 0xFEFF).

Fixpoint dropWhile (p : char16 -> bool) (s : jsstring) : jsstring :=
  match s with
  | [] => []
  | c :: s' => if p c then dropWhile p s' else s
  end.

Definition trimStart (s : jsstring) : jsstring := dropWhile isWhiteSpace s.
Definition trimEnd (s : jsstring) : jsstring :=
  rev (dropWhile isWhiteSpace (rev s)).

(** [String.prototype.trim]. *)
Definition trim (s : jsstring) : jsstring := trimEnd (trimStart s).

(** *** Regular expressions

    The fragment of the pattern language the component uses: a sequence of
    terms, each an atom (a literal code unit, or the class [\S]) taken once
    or under the greedy quantifier [+]. *)

Inductive atom : Type :=
| Char (c : char16)      (* a literal, such as [@] or [\.] *)
| NonSpace.              (* [\S] *)

Inductive term : Type :=
| Once (a : atom)
| Plus (a : atom).       (* [a+], greedy *)

Definition regex := list term.

Definition atom_matches (a : atom) (c : char16) : bool :=
  match a with
  | Char d => c =? d
  | NonSpace => negb (isWhiteSpace c)
  end.

(** The backtracking matcher. [greedy p k s] is the loop of a quantifier
    [+] once its first code unit is taken: it first tries to take one more
    code unit from [s], and falls back to the rest of the pattern, [k]. *)
Fixpoint greedy (p : char16 -> bool) (k : jsstring -> bool) (s : jsstring)
  : bool :=
  match s with
  | c :: s' => (p c && greedy p k s') || k s
  | [] => k []
  end.

(** [match_here re s] holds when [re] matches a prefix of [s]. *)
Fixpoint match_here (re : regex) (s : jsstring) {struct re} : bool :=
  match re with
  | [] => true
  | Once a :: re' =>
      match s with
      | c :: s' => atom_matches a c && match_here re' s'
      | [] => false
      end
  | Plus a :: re' =>
      match s with
      | c :: s' =>
          atom_matches a c && greedy (atom_matches a) (match_here re') s'
      | [] => false
      end
  end.

(** [RegExp.prototype.test] for a pattern without flags: the match is tried
    at every start index, from 0 to the length of the string. *)
Fixpoint test (re : regex) (s : jsstring) : bool :=
  match_here re s ||
  match s with
  | [] => false
  | _ :: s' => test re s'
  end.

(** What it means for a pattern to match a string exactly, without
    reference to the matcher. *)
Definition term_matches (t : term) (l : jsstring) : Prop :=
  match t with
  | Once a => exists c, l = [c] /\ atom_matches a c = true
  | Plus a => l <> [] /\ forallb (atom_matches a) l = true
  end.

Fixpoint regex_matches (re : regex) (l : jsstring) : Prop :=
  match re with
  | [] => l = []
  | t :: re' =>
      exists l1 l2, l = l1 ++ l2 /\ term_matches t l1 /\ regex_matches re' l2
  end.

(** [Number.prototype.toString] on a non-negative integer: its decimal
    digits. *)
Definition Number_toString (n : N) : jsstring :=
  lit (NilZero.string_of_uint (N.to_uint n)).

(** *** JSON.stringify

    [QuoteJSONString] (ECMA-262, 25.5.2.3): the string between double
    quotes, with the two-character escapes for backspace, tab, line feed,
    form feed, carriage return, the double quote and the backslash, and a
    [\uXXXX] escape (lower-case hexadecimal) for the other control
    characters and for surrogates that are not part of a pair. *)

Definition QUOTE : char16 := 0x22.
Definition BACKSLASH : char16 := 0x5C.

Definition hexDigit (n : N) : char16 :=
  if n <? 10 then 48 + n else 87 + n.

Definition unicodeEscape (c : char16) : jsstring :=
  [BACKSLASH; 117;
   hexDigit ((c / 4096) mod 16); hexDigit ((c / 256) mod 16);
   hexDigit ((c / 16) mod 16); hexDigit (c mod 16)].

Definition isLeadingSurrogate (c : char16) : bool :=
  (0xD800 <=? c) && (c <=? 0xDBFF).
Definition isTrailingSurrogate (c : char16) : bool :=
  (0xDC00 <=? c) && (c <=? 0xDFFF).

Fixpoint quoteChars (s : jsstring) : jsstring :=
  match s with
  | [] => []
  | c :: s' =>
      if c =? 0x08 then BACKSLASH :: 98 :: quoteChars s'
      else if c =? 0x09 then BACKSLASH :: 116 :: quoteChars s'
      else if c =? 0x0A then BACKSLASH :: 110 :: quoteChars s'
      else if c =? 0x0C then BACKSLASH :: 102 :: quoteChars s'
      else if c =? 0x0D then BACKSLASH :: 114 :: quoteChars s'
      else if c =? QUOTE then BACKSLASH :: QUOTE :: quoteChars s'
      else if c =? BACKSLASH then BACKSLASH :: BACKSLASH :: quoteChars s'
      else if c <? 0x20 then unicodeEscape c ++ quoteChars s'
      else if isLeadingSurrogate c then
        match s' with
        | d :: s'' =>
            if isTrailingSurrogate d then c :: d :: quoteChars s''
            else unicodeEscape c ++ quoteChars s'
        | [] => unicodeEscape c
        end
      else if isTrailingSurrogate c then unicodeEscape c ++ quoteChars s'
      else c :: quoteChars s'
  end.

Definition QuoteJSONString (s : jsstring) : jsstring :=
  QUOTE :: quoteChars s ++ [QUOTE].

(** [SerializeJSONObject] without indentation, for an object whose own
    properties, in creation order, all hold strings. *)
Definition serializeProperty (kv : jsstring * jsstring) : jsstring :=
  QuoteJSONString (fst kv) ++ lit ":" ++ QuoteJSONString (snd kv).

Fixpoint joinComma (parts : list jsstring) : jsstring :=
  match parts with
  | [] => []
  | [p] => p
  | p :: rest => p ++ lit "," ++ joinComma rest
  end.

Definition JSON_stringify (props : list (jsstring * jsstring)) : jsstring :=
  lit "{" ++ joinComma (List.map serializeProperty props) ++ lit "}".

(** *** Reading JSON back

    A reader for the compact JSON text of an object of three string
    members, as a JSON parser on the receiving end would read it. It is not
    part of the component; it serves to state that the text determines the
    strings that were serialized. *)

Definition unhex (c : char16) : option N :=
  if (48 <=? c) && (c <=? 57) then Some (c - 48)
  else if (97 <=? c) && (c <=? 102) then Some (c - 87)
  else if (65 <=? c) && (c <=? 70) then Some (c - 55)
  else None.

Definition unescape (c : char16) : option char16 :=
  if c =? 98 then Some 0x08
  else if c =? 116 then Some 0x09
  else if c =? 110 then Some 0x0A
  else if c =? 102 then Some 0x0C
  else if c =? 114 then Some 0x0D
  else if c =? QUOTE then Some QUOTE
  else if c =? BACKSLASH then Some BACKSLASH
  else if c =? 47 then Some 47
  else None.

Definition cons_fst (c : char16) (r : option (jsstring * jsstring))
  : option (jsstring * jsstring) :=
  match r with
  | Some (str, rest) => Some (c :: str, rest)
  | None => None
  end.

(** [readString s] reads a string literal whose opening quote has been
    consumed: the string it denotes, and the text after its closing quote. *)
Fixpoint readString (s : jsstring) : option (jsstring * jsstring) :=
  match s with
  | [] => None
  | c :: s1 =>
      if c =? QUOTE then Some ([], s1)
      else if c =? BACKSLASH then
        match s1 with
        | [] => None
        | e :: s2 =>
            if e =? 117 then
              match s2 with
              | h1 :: h2 :: h3 :: h4 :: s3 =>
                  match unhex h1, unhex h2, unhex h3, unhex h4 with
                  | Some a, Some b, Some c, Some d =>
                      cons_fst (4096 * a + 256 * b + 16 * c + d)
                               (readString s3)
                  | _, _, _, _ => None
                  end
              | _ => None
              end
            else
              match unescape e with
              | Some x => cons_fst x (readString s2)
              | None => None
              end
        end
      else if c <? 0x20 then None
      else cons_fst c (readString s1)
  end.

Definition expect (c : char16) (s : jsstring) : option jsstring :=
  match s with
  | d :: s' => if d =? c then Some s' else None
  | [] => None
  end.

(** One member, [key:value] with both in quotes. *)
Definition readMember (s : jsstring)
  : option ((jsstring * jsstring) * jsstring) :=
  match expect QUOTE s with
  | None => None
  | Some s1 =>
      match readString s1 with
      | None => None
      | Some (k, s2) =>
          match expect 58 s2 with
          | None => None
          | Some s3 =>
              match expect QUOTE s3 with
              | None => None
              | Some s4 =>
                  match readString s4 with
                  | None => None
                  | Some (v, s5) => Some ((k, v), s5)
                  end
              end
          end
      end
  end.

(** The text of an object with exactly three members. *)
Definition readThreeMembers (s : jsstring)
  : option (list (jsstring * jsstring)) :=
  match expect 123 s with
  | None => None
  | Some s1 =>
      match readMember s1 with
      | None => None
      | Some (m1, s2) =>
          match expect 44 s2 with
          | None => None
          | Some s3 =>
              match readMember s3 with
              | None => None
              | Some (m2, s4) =>
                  match expect 44 s4 with
                  | None => None
                  | Some s5 =>
                      match readMember s5 with
                      | None => None
                      | Some (m3, s6) =>
                          match expect 125 s6 with
                          | Some [] => Some [m1; m2; m3]
                          | _ => None
                          end
                      end
                  end
              end
          end
      end
  end.

(** [piece] is read back as the code unit [c]. *)
Definition encodes (c : char16) (piece : jsstring) : Prop :=
  forall t, readString (piece ++ t) = cons_fst c (readString t).

(** *** Promises, exceptions and fetch *)

(** What a [catch] clause can receive here: the [TypeError] of a rejected
    [fetch], the [SyntaxError] of a body that is not JSON, or the [Error] the
    component throws itself. *)
Inductive Exception : Type :=
| TypeError (msg : jsstring)
| SyntaxError (msg : jsstring)
| Error (msg : jsstring).

(** How an awaited promise settles. *)
Inductive Settled (A : Type) : Type :=
| Fulfilled (a : A)
| Rejected (e : Exception).
Arguments Fulfilled {A} a.
Arguments Rejected {A} e.

(** A parsed JSON value; number literals are kept as text. *)
Unset Elimination Schemes.
Inductive JsonValue : Type :=
| JNull
| JBool (b : bool)
| JNumber (literal : jsstring)
| JString (s : jsstring)
| JArray (items : list JsonValue)
| JObject (members : list (jsstring * JsonValue)).
Set Elimination Schemes.

(** The part of a [Response] the component reads: its status, and how the
    promise of [response.json()] settles. *)
Record Response : Type := {
  status : N;
  json : Settled JsonValue
}.

(** [Response.ok] (Fetch standard): the status is in the range 200 to 299. *)
Definition ok (r : Response) : bool :=
  (200 <=? status r) && (status r <=? 299).

End JS.

Import JS.

(** ** The component *)

Module ContactForm.

Record FormData : Type := {
  name : jsstring;
  email : jsstring;
  message : jsstring
}.

Record FormState : Type := {
  isSubmitting : bool;
  isSuccess : bool;
  error : option jsstring
}.

(** The [name] attribute of the three controls [handleInputChange] is
    attached to. *)
Inductive Field : Type := NameField | EmailField | MessageField.

Definition fieldName (f : Field) : jsstring :=
  match f with
  | NameField => lit "name"
  | EmailField => lit "email"
  | MessageField => lit "message"
  end.

(** [e.target] of a change event. *)
Record ChangeEvent : Type := {
  target_name : Field;
  target_value : jsstring
}.

Record Toast : Type := {
  title : jsstring;
  description : jsstring;
  variant : option jsstring
}.

(** The arguments of a [fetch] call. *)
Record Request : Type := {
  url : jsstring;
  method : jsstring;
  headers : list (jsstring * jsstring);
  body : jsstring
}.

(** What a handler does to the outside, in the order it does it. A state
    setter is recorded with the value it stores. *)
Inductive Effect : Type :=
| PreventDefault
| SetFormData (next : FormData)
| SetFormState (next : FormState)
| Fetch (req : Request)
| ToastCall (t : Toast)
| ConsoleError (label : jsstring) (e : Exception).

(** The two [useState] cells, the number of [fetch] promises that have not
    settled yet, and the effects so far (oldest first). *)
Record World : Type := {
  formData : FormData;
  formState : FormState;
  inflight : nat;
  trace : list Effect
}.

(** *** Handlers as state transformers *)

Definition M (A : Type) : Type := World -> A * World.

Definition ret {A} (a : A) : M A := fun w => (a, w).
Definition bind {A B} (m : M A) (k : A -> M B) : M B :=
  fun w => let (a, w') := m w in k a w'.

Declare Scope handler_scope.
Delimit Scope handler_scope with handler.
Notation "x <- m ;; k" := (bind m (fun x => k))
  (at level 61, m at next level, right associativity) : handler_scope.
Notation "m ;; k" := (bind m (fun _ => k))
  (at level 61, right associativity) : handler_scope.
Local Open Scope handler_scope.

Definition exec {A} (m : M A) (w : World) : World := snd (m w).
Definition result {A} (m : M A) (w : World) : A := fst (m w).

Definition emit (e : Effect) : M unit := fun w =>
  (tt, {| formData := formData w; formState := formState w;
          inflight := inflight w; trace := trace w ++ [e] |}).

Definition readFormData : M FormData := fun w => (formData w, w).
Definition readFormState : M FormState := fun w => (formState w, w).

(** [setFormData(updater)] and [setFormState(updater)]; a setter called with
    a value is the constant updater. No handler reads a cell after it has
    written it, so applying the update at once agrees with React's queue. *)
Definition setFormData (f : FormData -> FormData) : M unit := fun w =>
  let next := f (formData w) in
  (tt, {| formData := next; formState := formState w;
          inflight := inflight w; trace := trace w ++ [SetFormData next] |}).

Definition setFormState (f : FormState -> FormState) : M unit := fun w =>
  let next := f (formState w) in
  (tt, {| formData := formData w; formState := next;
          inflight := inflight w; trace := trace w ++ [SetFormState next] |}).

(** Calling [fetch] starts a request; awaiting its promise ends it. *)
Definition fetch (req : Request) : M unit := fun w =>
  (tt, {| formData := formData w; formState := formState w;
          inflight := S (inflight w); trace := trace w ++ [Fetch req] |}).

Definition await_fetch : M unit := fun w =>
  (tt, {| formData := formData w; formState := formState w;
          inflight := pred (inflight w); trace := trace w |}).

Definition toast (t : Toast) : M unit := emit (ToastCall t).
Definition console_error (label : jsstring) (e : Exception) : M unit :=
  emit (ConsoleError label e).

(** [{ ...prev, [name]: value }] *)
Definition assign (f : Field) (v : jsstring) (prev : FormData) : FormData :=
  match f with
  | NameField => {| name := v; email := email prev; message := message prev |}
  | EmailField => {| name := name prev; email := v; message := message prev |}
  | MessageField => {| name := name prev; email := email prev; message := v |}
  end.

(** [{ ...prev, error: e }] *)
Definition with_error (e : option jsstring) (prev : FormState) : FormState :=
  {| isSubmitting := isSubmitting prev; isSuccess := isSuccess prev;
     error := e |}.

Definition emptyForm : FormData :=
  {| name := []; email := []; message := [] |}.

Definition idle : FormState :=
  {| isSubmitting := false; isSuccess := false; error := None |}.
Definition submitting : FormState :=
  {| isSubmitting := true; isSuccess := false; error := None |}.
Definition succeeded : FormState :=
  {| isSubmitting := false; isSuccess := true; error := None |}.
Definition failed (msg : jsstring) : FormState :=
  {| isSubmitting := false; isSuccess := false; error := Some msg |}.

(** Lines 38-49. The state read in the condition is the one of the render
    the handler was created in, which is the current one when an event
    arrives. *)
Definition handleInputChange (e : ChangeEvent) : M unit :=
  setFormData (assign (target_name e) (target_value e)) ;;
  st <- readFormState ;;
  if truthy_opt (error st)
  then setFormState (with_error None)
  else ret tt.

Definition NAME_REQUIRED : jsstring := lit "Name is required".
Definition EMAIL_REQUIRED : jsstring := lit "Email is required".
Definition EMAIL_INVALID : jsstring := lit "Please enter a valid email address".
Definition MESSAGE_REQUIRED : jsstring := lit "Message is required".
Definition SEND_FAILED : jsstring :=
  lit "Failed to send message. Please try again later.".

(** [/\S+@\S+\.\S+/] *)
Definition emailPattern : regex :=
  [Plus NonSpace; Once (Char 64%N); Plus NonSpace; Once (Char 46%N); Plus NonSpace].

(** Lines 51-69. *)
Definition validateForm : M bool :=
  data <- readFormData ;;
  if negb (truthy (trim (name data))) then
    setFormState (with_error (Some NAME_REQUIRED)) ;; ret false
  else if negb (truthy (trim (email data))) then
    setFormState (with_error (Some EMAIL_REQUIRED)) ;; ret false
  else if negb (test emailPattern (email data)) then
    setFormState (with_error (Some EMAIL_INVALID)) ;; ret false
  else if negb (truthy (trim (message data))) then
    setFormState (with_error (Some MESSAGE_REQUIRED)) ;; ret false
  else ret true.

(** [JSON.stringify(formData)]: the object's own properties in creation
    order; a spread followed by an overwrite keeps that order. *)
Definition ownProperties (data : FormData) : list (jsstring * jsstring) :=
  [(fieldName NameField, name data);
   (fieldName EmailField, email data);
   (fieldName MessageField, message data)].

Definition submitRequest (data : FormData) : Request :=
  {| url := lit "/.netlify/functions/submit";
     method := lit "POST";
     headers := [(lit "Content-Type", lit "application/json")];
     body := JSON_stringify (ownProperties data) |}.

Definition successToast : Toast :=
  {| title := lit "Message sent successfully!";
     description :=
       lit "Thank you for your message. We'll get back to you soon.";
     variant := None |}.

Definition failureToast : Toast :=
  {| title := lit "Error sending message";
     description := lit "Please try again later or contact us directly.";
     variant := Some (lit "destructive") |}.

Definition httpError (response : Response) : Exception :=
  Error (lit "HTTP error! status: " ++ Number_toString (status response)).

(** Lines 71-89: [handleSubmit] up to the point where it suspends on
    [await fetch(...)]; the result tells whether a request was started. *)
Definition handleSubmit_begin : M bool :=
  emit PreventDefault ;;
  valid <- validateForm ;;
  if negb valid then ret false
  else
    setFormState (fun _ => submitting) ;;
    data <- readFormData ;;
    fetch (submitRequest data) ;;
    ret true.

(** Lines 91-113: the rest of the [try] block, once the promise of [fetch]
    has settled as [o]; [inl e] when the block throws [e]. The parsed body
    is bound to [result] and not used. *)
Definition tryBlock (o : Settled Response) : M (Exception + unit) :=
  await_fetch ;;
  match o with
  | Rejected e => ret (inl e)
  | Fulfilled response =>
      if negb (ok response) then ret (inl (httpError response))
      else
        match json response with
        | Rejected e => ret (inl e)
        | Fulfilled _ =>
            setFormState (fun _ => succeeded) ;;
            toast successToast ;;
            setFormData (fun _ => emptyForm) ;;
            ret (inr tt)
        end
  end.

(** Lines 115-128. *)
Definition catchBlock (e : Exception) : M unit :=
  console_error (lit "Form submission error:") e ;;
  setFormState (fun _ => failed SEND_FAILED) ;;
  toast failureToast.

Definition handleSubmit_resume (o : Settled Response) : M unit :=
  r <- tryBlock o ;;
  match r with
  | inl e => catchBlock e
  | inr _ => ret tt
  end.

(** The whole of [handleSubmit], given how its request will settle. *)
Definition handleSubmit (o : Settled Response) : M unit :=
  started <- handleSubmit_begin ;;
  if started then handleSubmit_resume o else ret tt.

(** Line 147: the [onClick] of "Send Another Message". *)
Definition handleReset : M unit := setFormState (fun _ => idle).

(** *** Rendering *)

Record InputProps : Type := {
  input_name : jsstring;
  input_value : jsstring;
  input_disabled : bool
}.

Record ButtonProps : Type := {
  button_disabled : bool;
  button_label : jsstring
}.

(** Lines 131-243: what the component returns, reduced to what decides
    behaviour: the confirmation card with its reset button, or the form
    with its optional alert, its three controls and its submit button. *)
Inductive View : Type :=
| Confirmation
| FormCard (alert : option jsstring)
           (nameInput emailInput messageArea : InputProps)
           (submitButton : ButtonProps).

Definition renderInput (f : Field) (v : jsstring) (st : FormState)
  : InputProps :=
  {| input_name := fieldName f; input_value := v;
     input_disabled := isSubmitting st |}.

Definition render (data : FormData) (st : FormState) : View :=
  if isSuccess st then Confirmation
  else
    FormCard
      (if truthy_opt (error st) then error st else None)
      (renderInput NameField (name data) st)
      (renderInput EmailField (email data) st)
      (renderInput MessageField (message data) st)
      {| button_disabled := isSubmitting st;
         button_label := if isSubmitting st
                         then lit "Sending Message..."
                         else lit "Send Message" |}.

(** *** The component as a transition system

    A change or submit event reaches its handler only from a control that
    is rendered and not disabled; the reset click only from the
    confirmation card; a request settles only while one is in flight.
    [validateForm] is called by [handleSubmit] alone; it is also admitted
    here as a step of its own, in any state, which only adds behaviours.

    The browser holds back more events than that: the controls are
    [required], the email control has [type="email"] and the form has no
    [noValidate], so a submit event is not fired for a form the browser
    finds invalid, and the inputs sanitize the values they deliver. None of
    this is modelled. The events admitted here are therefore a superset of
    the browser's: what holds in every reachable world holds in every world
    the browser can produce, and nothing below claims that an event that is
    enabled here does occur in the browser. *)

Inductive Event : Type :=
| Change (e : ChangeEvent)
| Submit
| Validate
| Settle (o : Settled Response)
| Reset.

Definition inputOf (f : Field) (v : View) : option InputProps :=
  match v with
  | Confirmation => None
  | FormCard _ n e m _ =>
      Some match f with
           | NameField => n
           | EmailField => e
           | MessageField => m
           end
  end.

Definition submitButtonOf (v : View) : option ButtonProps :=
  match v with
  | Confirmation => None
  | FormCard _ _ _ _ b => Some b
  end.

Definition enabled (ev : Event) (w : World) : bool :=
  let view := render (formData w) (formState w) in
  match ev with
  | Change e =>
      match inputOf (target_name e) view with
      | Some i => negb (input_disabled i)
      | None => false
      end
  | Submit =>
      match submitButtonOf view with
      | Some b => negb (button_disabled b)
      | None => false
      end
  | Validate => true
  | Settle _ => (0 <? inflight w)%nat
  | Reset =>
      match view with
      | Confirmation => true
      | FormCard _ _ _ _ _ => false
      end
  end.

Definition dispatch (ev : Event) : World -> World :=
  match ev with
  | Change e => exec (handleInputChange e)
  | Submit => exec handleSubmit_begin
  | Validate => exec validateForm
  | Settle o => exec (handleSubmit_resume o)
  | Reset => exec handleReset
  end.

Definition mount : World :=
  {| formData := emptyForm; formState := idle; inflight := 0; trace := [] |}.

Inductive reachable : World -> Prop :=
| reachable_mount : reachable mount
| reachable_step (ev : Event) (w : World) :
    reachable w -> enabled ev w = true -> reachable (dispatch ev w).

(** The same, as a function: the world after a list of events, if each of
    them is enabled when its turn comes. *)
Fixpoint run (evs : list Event) (w : World) : option World :=
  match evs with
  | [] => Some w
  | ev :: evs' => if enabled ev w then run evs' (dispatch ev w) else None
  end.

End ContactForm.

Import ContactForm.
Local Open Scope handler_scope.

(** ** The checks as the code evaluates them

    Four checks, each with its message, tried in order; the outcome is the
    first check that fails, if any. *)

Record Check : Type := {
  passes : FormData -> bool;
  failureMessage : jsstring
}.

Definition nameEmptiness : Check :=
  {| passes := fun d => truthy (trim (name d));
     failureMessage := lit "Name is required" |}.
Definition emailEmptiness : Check :=
  {| passes := fun d => truthy (trim (email d));
     failureMessage := lit "Email is required" |}.
Definition emailFormat : Check :=
  {| passes := fun d => test emailPattern (email d);
     failureMessage := lit "Please enter a valid email address" |}.
Definition messageEmptiness : Check :=
  {| passes := fun d => truthy (trim (message d));
     failureMessage := lit "Message is required" |}.

Definition checks : list Check :=
  [nameEmptiness; emailEmptiness; emailFormat; messageEmptiness].

Definition firstFailure (d : FormData) : option Check :=
  find (fun c => negb (passes c d)) checks.

(** The world after [setFormState(prev => ({ ...prev, error: e }))]. *)
Definition showError (e : jsstring) (w : World) : World :=
  {| formData := formData w;
     formState := with_error (Some e) (formState w);
     inflight := inflight w;
     trace := trace w ++ [SetFormState (with_error (Some e) (formState w))] |}.

(** ** Reading the trace *)

Definition toasts (t : list Effect) : list Toast :=
  flat_map (fun e => match e with ToastCall x => [x] | _ => [] end) t.

Definition fetches (t : list Effect) : list Request :=
  flat_map (fun e => match e with Fetch r => [r] | _ => [] end) t.

Definition stored (t : list Effect) : list FormState :=
  flat_map (fun e => match e with SetFormState st => [st] | _ => [] end) t.

(** The world in which [handleSubmit] suspends once validation has passed. *)
Definition suspended (w : World) : World :=
  {| formData := formData w;
     formState := submitting;
     inflight := S (inflight w);
     trace := trace w ++ [PreventDefault; SetFormState submitting;
                          Fetch (submitRequest (formData w))] |}.

(** The exception the [try] block of [handleSubmit] ends with, if any,
    when the request settles as [o]. *)
Definition thrown (o : Settled Response) : option Exception :=
  match o with
  | Rejected e => Some e
  | Fulfilled r =>
      if ok r then
        match json r with
        | Rejected e => Some e
        | Fulfilled _ => None
        end
      else Some (httpError r)
  end.

(** The three ways a submission fails, as the specification lists them: the
    call throws, the status is not 2xx, the body does not parse. *)
Definition fetchFails (o : Settled Response) : Prop :=
  match o with
  | Rejected _ => True
  | Fulfilled r =>
      ~ (200 <= status r <= 299)%N \/ exists e, json r = Rejected e
  end.

(** The worlds in which a resumed [handleSubmit] ends. *)
Definition afterSuccess (w : World) : World :=
  {| formData := emptyForm;
     formState := succeeded;
     inflight := pred (inflight w);
     trace := trace w ++ [SetFormState succeeded; ToastCall successToast;
                          SetFormData emptyForm] |}.

Definition afterFailure (e : Exception) (w : World) : World :=
  {| formData := formData w;
     formState := failed SEND_FAILED;
     inflight := pred (inflight w);
     trace := trace w ++ [ConsoleError (lit "Form submission error:") e;
                          SetFormState (failed SEND_FAILED);
                          ToastCall failureToast] |}.

(** [handleSubmit] returned at [if (!validateForm()) return] with the
    message [msg]: between [w] and [w'] the default action was prevented and
    one state was stored, the previous one with [error] replaced. Nothing
    was fetched, and no other field of the state was written. *)
Definition returnedEarly (msg : jsstring) (w w' : World) : Prop :=
  trace w' = trace w ++
    [PreventDefault; SetFormState (with_error (Some msg) (formState w))]
  /\ formState w' = with_error (Some msg) (formState w)
  /\ isSubmitting (formState w') = isSubmitting (formState w)
  /\ fetches (trace w') = fetches (trace w)
  /\ inflight w' = inflight w
  /\ formData w' = formData w.

(** The messages the component has for [error]. *)
Definition errorMessages : list jsstring :=
  [NAME_REQUIRED; EMAIL_REQUIRED; EMAIL_INVALID; MESSAGE_REQUIRED; SEND_FAILED].

Definition knownError (e : option jsstring) : Prop :=
  match e with
  | None => True
  | Some m => In m errorMessages
  end.

(** What holds of every world the component can be in. While a submission
    is in flight the state is exactly Submitting, one request is pending and
    the form is the valid one that was sent; otherwise none is pending. *)
Record invariant (w : World) : Prop := {
  inv_error : knownError (error (formState w));
  inv_stored : Forall (fun st => knownError (error st)) (stored (trace w));
  inv_submitting :
    isSubmitting (formState w) = true ->
    formState w = submitting /\ inflight w = 1
    /\ firstFailure (formData w) = None;
  inv_settled :
    isSubmitting (formState w) = false -> inflight w = 0
}.

(** The property of the form a field names. *)
Definition field (f : Field) (d : FormData) : jsstring :=
  match f with
  | NameField => name d
  | EmailField => email d
  | MessageField => message d
  end.

(** The form a receiver reads from a request body: the three members
    must be name, email and message, in this order. *)
Definition decodeSubmission (text : jsstring) : option FormData :=
  match readThreeMembers text with
  | Some [(k1, v1); (k2, v2); (k3, v3)] =>
      if string_eqb k1 (lit "name") && string_eqb k2 (lit "email")
         && string_eqb k3 (lit "message")
      then Some {| name := v1; email := v2; message := v3 |}
      else None
  | _ => None
  end.

(** ** Counting effects *)

Definition logged (t : list Effect) : list Exception :=
  flat_map (fun e => match e with ConsoleError _ x => [x] | _ => [] end) t.

Definition destructive (t : Toast) : bool :=
  match variant t with Some _ => true | None => false end.

(** What the effects of a reachable world add up to. Every request carries
    a form that passes validation; every request that has settled was
    answered by one toast, and every failure toast by one line on the
    console; the confirmation card is only shown over an emptied form;
    while a submission is in flight the last request is the one for the
    form as it stands. *)
Record ledger (w : World) : Prop := {
  led_requests :
    Forall (fun req => exists d, req = submitRequest d
                                 /\ firstFailure d = None)
           (fetches (trace w));
  led_toasts :
    Forall (fun t => t = successToast \/ t = failureToast) (toasts (trace w));
  led_balance :
    List.length (fetches (trace w))
    = (List.length (toasts (trace w)) + inflight w)%nat;
  led_logged :
    List.length (logged (trace w))
    = List.length (filter destructive (toasts (trace w)));
  led_success : isSuccess (formState w) = true -> formData w = emptyForm;
  led_last :
    isSubmitting (formState w) = true ->
    exists earlier,
      fetches (trace w) = earlier ++ [submitRequest (formData w)]
}.

(** The view of a world. *)
Definition view (w : World) : View := render (formData w) (formState w).

Definition alertOf (v : View) : option jsstring :=
  match v with
  | Confirmation => None
  | FormCard a _ _ _ _ => a
  end.

(** The form with nothing typed, ready for input. *)
Definition blankFormCard : View :=
  FormCard None
    {| input_name := lit "name"; input_value := []; input_disabled := false |}
    {| input_name := lit "email"; input_value := []; input_disabled := false |}
    {| input_name := lit "message"; input_value := [];
       input_disabled := false |}
    {| button_disabled := false; button_label := lit "Send Message" |}.

(** Being empty or white space only. *)
Definition blank (s : jsstring) : Prop := forallb isWhiteSpace s = true.

(** Holding a fragment of the shape the email pattern asks for. *)
Definition emailShaped (s : jsstring) : Prop :=
  exists pre a b c post : jsstring,
    s = pre ++ a ++ [64%N] ++ b ++ [46%N] ++ c ++ post
    /\ a <> [] /\ b <> [] /\ c <> []
    /\ forallb (fun x => negb (isWhiteSpace x)) (a ++ b ++ c) = true.

(** ** Validation as the specification words it

    Four rules in a fixed order, each with its message. They are stated on
    the form itself, through [blank] and [emailShaped], not through the
    platform's [trim] and [test]. *)

Record Rule : Type := {
  holds : FormData -> Prop;
  complaint : jsstring
}.

Definition rules : list Rule :=
  [{| holds := fun d => ~ blank (name d);
      complaint := lit "Name is required" |};
   {| holds := fun d => ~ blank (email d);
      complaint := lit "Email is required" |};
   {| holds := fun d => emailShaped (email d);
      complaint := lit "Please enter a valid email address" |};
   {| holds := fun d => ~ blank (message d);
      complaint := lit "Message is required" |}].

(** [validateForm], run in [w], came out as [r]: it returned false, and its
    one effect was a call of the state setter that stored [msg] in [error]
    and left the two flags as they were. *)
Definition rejectedWith (msg : jsstring) (w : World) (r : bool * World)
  : Prop :=
  fst r = false
  /\ formState (snd r) =
       {| isSubmitting := isSubmitting (formState w);
          isSuccess := isSuccess (formState w);
          error := Some msg |}
  /\ trace (snd r) = trace w ++
       [SetFormState {| isSubmitting := isSubmitting (formState w);
                        isSuccess := isSuccess (formState w);
                        error := Some msg |}]
  /\ formData (snd r) = formData w
  /\ inflight (snd r) = inflight w.

(** ** Sample worlds *)

Definition freshWorld (d : FormData) : World :=
  {| formData := d; formState := idle; inflight := 0; trace := [] |}.

Definition blankEmail : World :=
  freshWorld {| name := lit "a"; email := []; message := lit "m" |}.

Definition noAtSign : World :=
  freshWorld {| name := lit "Ann"; email := lit "ann.example.org";
                message := lit "hello" |}.

Definition annForm : FormData :=
  {| name := lit "Ann"; email := lit "ann@example.org";
     message := lit " hello there " |}.

Definition blankName : World :=
  freshWorld {| name := lit "  "; email := lit "ann@example.org";
                message := lit "hello" |}.

Definition okResponse : Response :=
  {| status := 200%N; json := Fulfilled (JObject []) |}.

Definition serverError : Response :=
  {| status := 500%N; json := Fulfilled (JObject []) |}.

Definition notJson : Response :=
  {| status := 200%N; json := Rejected (SyntaxError (lit "Unexpected token")) |}.

Definition annTyped : World :=
  dispatch (Change {| target_name := MessageField; target_value := lit "hi" |})
    (dispatch (Change {| target_name := EmailField;
                         target_value := lit "ann@example.org" |})
       (dispatch (Change {| target_name := NameField;
                            target_value := lit "Ann" |}) mount)).

(** A submission is in flight. *)
Definition annWaiting : World := dispatch Submit annTyped.

(** A validation error is on display. *)
Definition bobRejected : World :=
  dispatch Submit
    (dispatch (Change {| target_name := NameField; target_value := lit "Bob" |})
       mount).

(** The request of [annWaiting] was refused by the server. *)
Definition annFailed : World :=
  dispatch (Settle (Fulfilled serverError)) annWaiting.

(** The request of [annWaiting] was accepted. *)
Definition annSucceeded : World :=
  dispatch (Settle (Fulfilled okResponse)) annWaiting.

Arguments lit : simpl never.
Arguments Number_toString : simpl never.

(** ** Facts about the platform functions *)

Section Trim.

Lemma dropWhile_nil p s : dropWhile p s = [] <-> forallb p s = true.
Proof.
  induction s as [|c s IH]; simpl.
  - tauto.
  - destruct (p c); simpl; [exact IH | split; discriminate].
Qed.

Lemma forallb_dropWhile p s :
  forallb p (dropWhile p s) = true -> forallb p s = true.
Proof.
  induction s as [|c s IH]; simpl; [trivial|].
  destruct (p c) eqn:E; simpl; [exact IH|].
  rewrite E. discriminate.
Qed.

Lemma forallb_rev (p : char16 -> bool) s : forallb p (rev s) = forallb p s.
Proof.
  induction s as [|c s IH]; simpl; [reflexivity|].
  rewrite forallb_app, IH. simpl. rewrite andb_true_r. apply andb_comm.
Qed.

(** [trim] leaves nothing exactly when the string is empty or consists of
    white space only. *)
Lemma trim_nil s : trim s = [] <-> forallb isWhiteSpace s = true.
Proof.
  unfold trim, trimEnd, trimStart. split.
  - intros H. apply (f_equal (@rev char16)) in H. rewrite rev_involutive in H.
    simpl in H. apply dropWhile_nil in H. rewrite forallb_rev in H.
    now apply forallb_dropWhile.
  - intros H. apply dropWhile_nil in H. rewrite H. reflexivity.
Qed.

Lemma truthy_false s : truthy s = false <-> s = [].
Proof. destruct s; simpl; split; congruence. Qed.

Lemma blank_trim s : truthy (trim s) = false <-> forallb isWhiteSpace s = true.
Proof. rewrite truthy_false. apply trim_nil. Qed.

End Trim.

(** *** The matcher against the meaning of patterns *)

Section Regex.

Lemma greedy_spec p k s :
  greedy p k s = true <->
  exists l rest, s = l ++ rest /\ forallb p l = true /\ k rest = true.
Proof.
  induction s as [|c s IH]; simpl.
  - split.
    + intros H. exists [], []. auto.
    + intros (l & rest & E & _ & K).
      symmetry in E. apply app_eq_nil in E as [_ ->]. exact K.
  - rewrite orb_true_iff, andb_true_iff, IH. split.
    + intros [[Pc (l & rest & -> & Pl & K)]|K].
      * exists (c :: l), rest. simpl. rewrite Pc, Pl. auto.
      * exists [], (c :: s). auto.
    + intros (l & rest & E & Pl & K). destruct l as [|d l]; simpl in *.
      * right. now subst rest.
      * injection E as <- ->. apply andb_true_iff in Pl as [Pc Pl].
        left. split; [exact Pc|]. now exists l, rest.
Qed.

Lemma match_here_spec re : forall s,
  match_here re s = true <->
  exists l rest, s = l ++ rest /\ regex_matches re l.
Proof.
  induction re as [|t re IH]; intros s.
  - simpl. split; [|reflexivity]. intros _. now exists [], s.
  - destruct t as [a|a]; simpl.
    + destruct s as [|c s].
      * split; [discriminate|].
        intros (l & rest & E & l1 & l2 & -> & (d & -> & _) & _).
        discriminate.
      * rewrite andb_true_iff, IH. split.
        -- intros [A (l & rest & -> & M)].
           exists (c :: l), rest. split; [reflexivity|].
           exists [c], l. split; [reflexivity|]. split; [eauto | exact M].
        -- intros (l & rest & E & l1 & l2 & -> & (d & -> & A) & M).
           simpl in E. injection E as -> ->. split; [exact A|].
           now exists l2, rest.
    + destruct s as [|c s].
      * split; [discriminate|].
        intros (l & rest & E & l1 & l2 & -> & (N & _) & _).
        destruct l1; [contradiction | discriminate].
      * rewrite andb_true_iff, greedy_spec. split.
        -- intros [A (l & rest & -> & P & K)].
           apply IH in K as (l2 & rest' & -> & M).
           exists ((c :: l) ++ l2), rest'. split.
           ++ simpl. now rewrite app_assoc.
           ++ exists (c :: l), l2. split; [reflexivity|]. split; [|exact M].
              split; [discriminate|]. simpl. now rewrite A, P.
        -- intros (l & rest & E & l1 & l2 & -> & (N & P) & M).
           destruct l1 as [|d l1]; [contradiction|].
           simpl in E. injection E as -> ->.
           simpl in P. apply andb_true_iff in P as [A P].
           split; [exact A|]. exists l1, (l2 ++ rest).
           split; [now rewrite app_assoc|]. split; [exact P|].
           apply IH. now exists l2, rest.
Qed.

(** [test] finds a match exactly when some substring is matched. *)
Lemma test_spec re s :
  test re s = true <->
  exists pre l post, s = pre ++ l ++ post /\ regex_matches re l.
Proof.
  induction s as [|c s IH].
  - simpl. rewrite orb_false_r, match_here_spec. split.
    + intros (l & rest & E & M). now exists [], l, rest.
    + intros (pre & l & post & E & M).
      symmetry in E. apply app_eq_nil in E as [_ E].
      apply app_eq_nil in E as [-> ->]. now exists [], [].
  - simpl. rewrite orb_true_iff, IH, match_here_spec. split.
    + intros [(l & rest & E & M)|(pre & l & post & -> & M)].
      * now exists [], l, rest.
      * now exists (c :: pre), l, post.
    + intros (pre & l & post & E & M). destruct pre as [|d pre].
      * left. now exists l, post.
      * simpl in E. injection E as -> ->. right. now exists pre, l, post.
Qed.

(** The email pattern, read off: somewhere in the string there are code
    units other than white space, an [@], more of them, a dot, and more of
    them. *)
Lemma emailPattern_spec s :
  test emailPattern s = true <->
  exists pre a b c post : jsstring,
    s = pre ++ a ++ [64%N] ++ b ++ [46%N] ++ c ++ post
    /\ a <> [] /\ b <> [] /\ c <> []
    /\ forallb (fun x => negb (isWhiteSpace x)) (a ++ b ++ c) = true.
Proof.
  rewrite test_spec. unfold emailPattern. simpl.
  change (fun x => negb (isWhiteSpace x)) with (atom_matches NonSpace).
  split.
  - intros (pre & l & post & -> &
            a & l1 & -> & (Na & Pa) &
            at_ & l2 & -> & (x & -> & Ex) &
            b & l3 & -> & (Nb & Pb) &
            dot & l4 & -> & (y & -> & Ey) &
            c & l5 & -> & (Nc & Pc) & ->).
    apply N.eqb_eq in Ex, Ey. subst x y.
    exists pre, a, b, c, post. rewrite app_nil_r, !forallb_app, Pa, Pb, Pc.
    rewrite <- !app_assoc. simpl. auto.
  - intros (pre & a & b & c & post & -> & Na & Nb & Nc & P).
    rewrite !forallb_app, !andb_true_iff in P. destruct P as (Pa & Pb & Pc).
    exists pre, (a ++ [64%N] ++ b ++ [46%N] ++ c), post. split.
    + rewrite <- !app_assoc. reflexivity.
    + exists a, ([64%N] ++ b ++ [46%N] ++ c). repeat split; auto.
      exists [64%N], (b ++ [46%N] ++ c). repeat split; eauto.
      exists b, ([46%N] ++ c). repeat split; auto.
      exists [46%N], c. repeat split; eauto.
      exists c, []. rewrite app_nil_r. repeat split; auto.
Qed.

End Regex.

(** *** Reading back what [JSON.stringify] writes *)

Section Json.

Local Open Scope N_scope.

Lemma hexDigit_unhex n : n < 16 -> unhex (hexDigit n) = Some n.
Proof.
  intros H. unfold hexDigit, unhex.
  destruct (n <? 10) eqn:E.
  - apply N.ltb_lt in E.
    replace ((48 <=? 48 + n) && (48 + n <=? 57)) with true
      by (symmetry; apply andb_true_iff; split; apply N.leb_le; lia).
    f_equal. lia.
  - apply N.ltb_ge in E.
    replace (87 + n <=? 57) with false by (symmetry; apply N.leb_gt; lia).
    rewrite andb_false_r.
    replace ((97 <=? 87 + n) && (87 + n <=? 102)) with true
      by (symmetry; apply andb_true_iff; split; apply N.leb_le; lia).
    f_equal. lia.
Qed.

Lemma hex_digits_value c :
  c < 65536 ->
  4096 * ((c / 4096) mod 16) + 256 * ((c / 256) mod 16)
  + 16 * ((c / 16) mod 16) + c mod 16 = c.
Proof.
  intros H.
  assert (A1 : c / 16 / 16 = c / 256) by (now rewrite N.Div0.div_div).
  assert (A2 : c / 256 / 16 = c / 4096) by (now rewrite N.Div0.div_div).
  pose proof (N.div_mod c 16 ltac:(lia)) as E0.
  pose proof (N.div_mod (c / 16) 16 ltac:(lia)) as E1.
  pose proof (N.div_mod (c / 256) 16 ltac:(lia)) as E2.
  rewrite A1 in E1. rewrite A2 in E2.
  assert (S : c / 4096 < 16) by (apply N.Div0.div_lt_upper_bound; lia).
  rewrite (N.mod_small (c / 4096) 16 S).
  lia.
Qed.

Lemma readString_escape e x s :
  e <> 117 -> unescape e = Some x ->
  readString (BACKSLASH :: e :: s) = cons_fst x (readString s).
Proof.
  intros N U. apply N.eqb_neq in N.
  change (readString (BACKSLASH :: e :: s))
    with (if e =? 117
          then match s with
               | h1 :: h2 :: h3 :: h4 :: s3 =>
                   match unhex h1, unhex h2, unhex h3, unhex h4 with
                   | Some a, Some b, Some c, Some d =>
                       cons_fst (4096 * a + 256 * b + 16 * c + d)
                                (readString s3)
                   | _, _, _, _ => None
                   end
               | _ => None
               end
          else match unescape e with
               | Some x => cons_fst x (readString s)
               | None => None
               end).
  rewrite N, U. reflexivity.
Qed.

Lemma readString_unicodeEscape c s :
  c < 65536 ->
  readString (unicodeEscape c ++ s) = cons_fst c (readString s).
Proof.
  intros H. unfold unicodeEscape.
  assert (M : forall x, x mod 16 < 16) by (intros; apply N.mod_lt; lia).
  change (readString ([BACKSLASH; 117; hexDigit ((c / 4096) mod 16);
                       hexDigit ((c / 256) mod 16);
                       hexDigit ((c / 16) mod 16); hexDigit (c mod 16)] ++ s))
    with (match unhex (hexDigit ((c / 4096) mod 16)),
                unhex (hexDigit ((c / 256) mod 16)),
                unhex (hexDigit ((c / 16) mod 16)),
                unhex (hexDigit (c mod 16)) with
          | Some a, Some b, Some c, Some d =>
              cons_fst (4096 * a + 256 * b + 16 * c + d) (readString s)
          | _, _, _, _ => None
          end).
  rewrite !hexDigit_unhex by apply M.
  rewrite (hex_digits_value c H). reflexivity.
Qed.

Lemma readString_plain c s :
  c <> QUOTE -> c <> BACKSLASH -> 0x20 <= c ->
  readString (c :: s) = cons_fst c (readString s).
Proof.
  intros Q B L. apply N.eqb_neq in Q, B. apply N.ltb_ge in L.
  simpl. rewrite Q, B, L. reflexivity.
Qed.

Lemma encodes_escape e x :
  e <> 117 -> unescape e = Some x -> encodes x [BACKSLASH; e].
Proof. intros N U t. now apply readString_escape. Qed.

Lemma encodes_unicodeEscape c : c < 65536 -> encodes c (unicodeEscape c).
Proof. intros H t. now apply readString_unicodeEscape. Qed.

Lemma encodes_plain c :
  c <> QUOTE -> c <> BACKSLASH -> 0x20 <= c -> encodes c [c].
Proof. intros Q B L t. now apply readString_plain. Qed.

Lemma surrogate_bounds c :
  isLeadingSurrogate c = true \/ isTrailingSurrogate c = true ->
  0xD800 <= c <= 0xDFFF.
Proof.
  unfold isLeadingSurrogate, isTrailingSurrogate.
  rewrite !andb_true_iff, !N.leb_le. lia.
Qed.

Lemma encodes_surrogate c :
  isLeadingSurrogate c = true \/ isTrailingSurrogate c = true ->
  encodes c [c] /\ encodes c (unicodeEscape c).
Proof.
  intros H. apply surrogate_bounds in H. unfold QUOTE, BACKSLASH in *.
  split; [apply encodes_plain | apply encodes_unicodeEscape];
    unfold QUOTE, BACKSLASH; lia.
Qed.

Ltac escaped E e :=
  apply N.eqb_eq in E; subst; left; exists [BACKSLASH; e];
  split; [reflexivity | now apply encodes_escape].

(** One step of [quoteChars]: either the first code unit is written as a
    piece of its own, or it is the first half of a surrogate pair, which is
    copied. *)
Lemma quoteChars_cons c s :
  (exists piece, quoteChars (c :: s) = piece ++ quoteChars s
                 /\ encodes c piece)
  \/ (exists d s', s = d :: s'
                   /\ quoteChars (c :: s) = c :: d :: quoteChars s'
                   /\ encodes c [c] /\ encodes d [d]).
Proof.
  simpl.
  destruct (c =? 8) eqn:E1; [escaped E1 98|].
  destruct (c =? 9) eqn:E2; [escaped E2 116|].
  destruct (c =? 10) eqn:E3; [escaped E3 110|].
  destruct (c =? 12) eqn:E4; [escaped E4 102|].
  destruct (c =? 13) eqn:E5; [escaped E5 114|].
  destruct (c =? QUOTE) eqn:E6; [escaped E6 QUOTE|].
  destruct (c =? BACKSLASH) eqn:E7; [escaped E7 BACKSLASH|].
  apply N.eqb_neq in E6, E7.
  destruct (c <? 32) eqn:E8.
  { apply N.ltb_lt in E8. left. exists (unicodeEscape c).
    split; [reflexivity|]. apply encodes_unicodeEscape. lia. }
  apply N.ltb_ge in E8.
  destruct (isLeadingSurrogate c) eqn:L.
  - destruct s as [|d s'].
    + left. exists (unicodeEscape c). split; [now rewrite app_nil_r|].
      apply encodes_surrogate. auto.
    + destruct (isTrailingSurrogate d) eqn:T.
      * right. exists d, s'. repeat split.
        -- apply encodes_surrogate. auto.
        -- apply encodes_surrogate. auto.
      * left. exists (unicodeEscape c). split; [reflexivity|].
        apply encodes_surrogate. auto.
  - destruct (isTrailingSurrogate c) eqn:T.
    + left. exists (unicodeEscape c). split; [reflexivity|].
      apply encodes_surrogate. auto.
    + left. exists [c]. split; [reflexivity|]. now apply encodes_plain.
Qed.

Lemma readString_quoteChars s : forall rest,
  readString (quoteChars s ++ QUOTE :: rest) = Some (s, rest).
Proof.
  enough (H : (forall rest, readString (quoteChars s ++ QUOTE :: rest)
                            = Some (s, rest))
              /\ forall c rest,
                   readString (quoteChars (c :: s) ++ QUOTE :: rest)
                   = Some (c :: s, rest)) by apply H.
  induction s as [|d s [IH1 IH2]].
  - split; [reflexivity|]. intros c rest.
    destruct (quoteChars_cons c []) as [(piece & -> & En)|(d & s' & E & _)];
      [|discriminate].
    rewrite <- app_assoc, En. reflexivity.
  - split; [apply IH2|]. intros c rest.
    destruct (quoteChars_cons c (d :: s))
      as [(piece & -> & En)|(d' & s' & E & -> & Ec & Ed)].
    + rewrite <- app_assoc, En, IH2. reflexivity.
    + injection E as <- <-.
      change (readString ([c] ++ [d] ++ quoteChars s ++ QUOTE :: rest)
              = Some (c :: d :: s, rest)).
      rewrite Ec, Ed, IH1. reflexivity.
Qed.

Lemma readString_QuoteJSONString s rest :
  expect QUOTE (QuoteJSONString s ++ rest) = Some (quoteChars s ++ QUOTE :: rest).
Proof.
  unfold QuoteJSONString. simpl. now rewrite <- app_assoc.
Qed.

Lemma expect_cons c s : expect c (c :: s) = Some s.
Proof. simpl. now rewrite N.eqb_refl. Qed.

Lemma readMember_serializeProperty k v rest :
  readMember (serializeProperty (k, v) ++ rest) = Some ((k, v), rest).
Proof.
  unfold readMember, serializeProperty. simpl fst. simpl snd.
  rewrite <- !app_assoc.
  rewrite (readString_QuoteJSONString k). cbv beta iota.
  rewrite (readString_quoteChars k). cbv beta iota.
  change (lit ":" ++ QuoteJSONString v ++ rest)
    with (58 :: (QuoteJSONString v ++ rest)).
  rewrite expect_cons. cbv beta iota.
  rewrite (readString_QuoteJSONString v). cbv beta iota.
  rewrite (readString_quoteChars v). reflexivity.
Qed.

(** The text [JSON.stringify] writes for three string properties is read
    back as those three properties. *)
Lemma readThreeMembers_JSON_stringify p1 p2 p3 :
  readThreeMembers (JSON_stringify [p1; p2; p3]) = Some [p1; p2; p3].
Proof.
  destruct p1 as [k1 v1], p2 as [k2 v2], p3 as [k3 v3].
  unfold JSON_stringify, readThreeMembers. cbn [map joinComma].
  change (lit "{") with [123]. change (lit ",") with [44].
  change (lit "}") with [125].
  rewrite <- !app_assoc. cbn [app].
  rewrite expect_cons. cbv beta iota.
  rewrite readMember_serializeProperty. cbv beta iota.
  rewrite expect_cons. cbv beta iota.
  rewrite readMember_serializeProperty. cbv beta iota.
  rewrite expect_cons. cbv beta iota.
  rewrite readMember_serializeProperty. cbv beta iota.
  rewrite expect_cons. reflexivity.
Qed.

End Json.

(** ** Validation *)

Lemma validateForm_firstFailure w :
  validateForm w =
  match firstFailure (formData w) with
  | Some c => (false, showError (failureMessage c) w)
  | None => (true, w)
  end.
Proof.
  unfold validateForm, firstFailure, checks, bind, readFormData. simpl find.
  destruct (truthy (trim (name (formData w)))); [|reflexivity].
  destruct (truthy (trim (email (formData w)))); [|reflexivity].
  destruct (test emailPattern (email (formData w))); [|reflexivity].
  destruct (truthy (trim (message (formData w)))); reflexivity.
Qed.

Lemma not_blank_truthy s : truthy (trim s) = true <-> ~ blank s.
Proof.
  unfold blank. rewrite <- blank_trim.
  destruct (truthy (trim s)); split; congruence.
Qed.

Lemma emailShaped_test s : test emailPattern s = true <-> emailShaped s.
Proof. apply emailPattern_spec. Qed.

Lemma emailShaped_not_blank s : emailShaped s -> ~ blank s.
Proof.
  intros (pre & a & b & c & post & -> & Na & _ & _ & P) B.
  unfold blank in B. rewrite !forallb_app in B. rewrite forallb_app in P.
  apply andb_true_iff in B as [_ B]. apply andb_true_iff in B as [B _].
  apply andb_true_iff in P as [P _].
  destruct a as [|x a]; [contradiction|]. simpl in B, P.
  destruct (isWhiteSpace x); discriminate.
Qed.

Lemma blank_or_not s : blank s \/ ~ blank s.
Proof. unfold blank. destruct (forallb isWhiteSpace s); auto. Qed.

Lemma emailShaped_or_not s : emailShaped s \/ ~ emailShaped s.
Proof.
  destruct (test emailPattern s) eqn:T.
  - left. now apply emailShaped_test.
  - right. intros H. apply emailShaped_test in H. congruence.
Qed.

Lemma showError_rejectedWith m w : rejectedWith m w (false, showError m w).
Proof. unfold rejectedWith, showError, with_error. simpl. repeat split. Qed.

(** What [validateForm] does, by the cause on the form. *)
Lemma validateForm_cases w :
  let d := formData w in
  (blank (name d)
   /\ validateForm w = (false, showError NAME_REQUIRED w))
  \/ (~ blank (name d) /\ blank (email d)
      /\ validateForm w = (false, showError EMAIL_REQUIRED w))
  \/ (~ blank (name d) /\ ~ blank (email d) /\ ~ emailShaped (email d)
      /\ validateForm w = (false, showError EMAIL_INVALID w))
  \/ (~ blank (name d) /\ emailShaped (email d) /\ blank (message d)
      /\ validateForm w = (false, showError MESSAGE_REQUIRED w))
  \/ (~ blank (name d) /\ emailShaped (email d) /\ ~ blank (message d)
      /\ validateForm w = (true, w)).
Proof.
  cbv zeta. rewrite validateForm_firstFailure.
  unfold firstFailure, checks. simpl find.
  pose proof (not_blank_truthy (name (formData w))) as Hn.
  pose proof (not_blank_truthy (email (formData w))) as He.
  pose proof (not_blank_truthy (message (formData w))) as Hm.
  pose proof (emailShaped_test (email (formData w))) as Ht.
  destruct (blank_or_not (name (formData w))) as [Bn|Bn].
  { left. split; [exact Bn|].
    destruct (truthy (trim (name (formData w)))); [|reflexivity].
    destruct (proj1 Hn eq_refl Bn). }
  apply Hn in Bn as Tn. rewrite Tn. simpl. right.
  destruct (blank_or_not (email (formData w))) as [Be|Be].
  { left. split; [exact Bn|]. split; [exact Be|].
    destruct (truthy (trim (email (formData w)))); [|reflexivity].
    destruct (proj1 He eq_refl Be). }
  apply He in Be as Te. rewrite Te. simpl. right.
  destruct (emailShaped_or_not (email (formData w))) as [S|S].
  2:{ left. repeat (split; [assumption|]).
      destruct (test emailPattern (email (formData w))); [|reflexivity].
      destruct (S (proj1 Ht eq_refl)). }
  apply Ht in S as Tt. rewrite Tt. simpl. right.
  destruct (blank_or_not (message (formData w))) as [Bm|Bm].
  { left. repeat (split; [assumption|]).
    destruct (truthy (trim (message (formData w)))); [|reflexivity].
    destruct (proj1 Hm eq_refl Bm). }
  apply Hm in Bm as Tm. rewrite Tm. right. auto.
Qed.

Ltac exhaust_rules :=
  split; [reflexivity|];
  split; [repeat constructor; simpl; auto | simpl; tauto].

(** C1. Validation runs the four rules in the order name-emptiness,
    email-emptiness, email-format, message-emptiness, and stops at the first
    one that does not hold: whenever the rules before a rule hold and that
    rule does not, [validateForm] returns [false] and its only effect is one
    call of the state setter that stores that rule's message in [error]
    ("Name is required", "Email is required", "Please enter a valid email
    address", "Message is required") and keeps the two flags. When every
    rule holds it returns [true] and leaves the world as it was, no setter
    called. One of the two is always the case. *)
Theorem validateForm_first_failing_check (w : World) :
  let d := formData w in
  (forall before c after,
      rules = before ++ c :: after ->
      Forall (fun b => holds b d) before ->
      ~ holds c d ->
      rejectedWith (complaint c) w (validateForm w))
  /\ (Forall (fun c => holds c d) rules -> validateForm w = (true, w))
  /\ (Forall (fun c => holds c d) rules
      \/ exists before c after,
           rules = before ++ c :: after
           /\ Forall (fun b => holds b d) before /\ ~ holds c d).
Proof.
  cbv zeta.
  pose proof (@emailShaped_not_blank (email (formData w))) as Sh.
  pose proof (showError_rejectedWith NAME_REQUIRED w) as R1.
  pose proof (showError_rejectedWith EMAIL_REQUIRED w) as R2.
  pose proof (showError_rejectedWith EMAIL_INVALID w) as R3.
  pose proof (showError_rejectedWith MESSAGE_REQUIRED w) as R4.
  destruct (validateForm_cases w)
    as [(Bn & E)|[(Bn & Be & E)|[(Bn & Be & S & E)
       |[(Bn & S & Bm & E)|(Bn & S & Bm & E)]]]];
    rewrite E; clear E.
  all: split; [|split].
  all: try (intros before c after Sp B F;
            destruct before as [|b1 [|b2 [|b3 [|b4 before]]]];
            simpl in Sp; inversion Sp; subst; clear Sp;
            repeat match goal with
                   | H : Forall _ (_ :: _) |- _ => inversion H; subst; clear H
                   | H : [] = _ ++ _ :: _ |- _ =>
                       destruct (app_cons_not_nil _ _ _ H)
                   end;
            simpl in *; solve [assumption | tauto]).
  all: try (intros A; unfold rules in A;
            repeat match goal with
                   | H : Forall _ (_ :: _) |- _ => inversion H; subst; clear H
                   end;
            simpl in *; solve [reflexivity | tauto]).
  - right. exists [], (nth 0 rules (Build_Rule (fun _ => True) [])),
      (skipn 1 rules).
    exhaust_rules.
  - right. exists (firstn 1 rules),
      (nth 1 rules (Build_Rule (fun _ => True) [])), (skipn 2 rules).
    exhaust_rules.
  - right. exists (firstn 2 rules),
      (nth 2 rules (Build_Rule (fun _ => True) [])), (skipn 3 rules).
    exhaust_rules.
  - right. exists (firstn 3 rules),
      (nth 3 rules (Build_Rule (fun _ => True) [])), (skipn 4 rules).
    exhaust_rules.
  - left. unfold rules. repeat constructor; simpl; auto.
Qed.

Lemma validateForm_first_failing_check_witness :
  fst (validateForm noAtSign) = false
  /\ error (formState (snd (validateForm noAtSign)))
     = Some (lit "Please enter a valid email address").
Proof.
  destruct (validateForm_first_failing_check noAtSign) as (F & _ & _).
  destruct (F (firstn 2 rules)
              {| holds := fun d => emailShaped (email d);
                 complaint := lit "Please enter a valid email address" |}
              (skipn 3 rules)) as (Rf & Rs & _).
  - reflexivity.
  - repeat constructor; simpl; intros B; vm_compute in B; discriminate B.
  - simpl. intros S. apply emailShaped_test in S. vm_compute in S.
    discriminate S.
  - split; [exact Rf|]. rewrite Rs. reflexivity.
Defined.

(** C5, as stated, fails: with a name and a message but an empty email the
    pattern finds no match, yet the message is "Email is required". *)
Lemma email_format_error_counterexample :
  ~ (forall w : World,
       trim (name (formData w)) <> [] ->
       trim (message (formData w)) <> [] ->
       test emailPattern (email (formData w)) = false ->
       result validateForm w = false /\
       error (formState (exec validateForm w)) = Some EMAIL_INVALID).
Proof.
  intros H.
  destruct (H blankEmail) as [_ E]; try (vm_compute; congruence).
  vm_compute in E. discriminate.
Qed.

(** C5, amended. For every FormData whose name, email and message are
    non-empty after trimming (not blank) and whose email the pattern
    [\S+@\S+\.\S+] finds no match in (it has no fragment of that shape),
    validation fails: [validateForm] returns [false] and stores "Please
    enter a valid email address" in [error], by one call of the state
    setter that keeps the two flags. *)
Theorem email_format_error (w : World) :
  ~ blank (name (formData w)) ->
  ~ blank (email (formData w)) ->
  ~ blank (message (formData w)) ->
  ~ emailShaped (email (formData w)) ->
  fst (validateForm w) = false
  /\ formState (snd (validateForm w)) =
       {| isSubmitting := isSubmitting (formState w);
          isSuccess := isSuccess (formState w);
          error := Some (lit "Please enter a valid email address") |}
  /\ trace (snd (validateForm w)) = trace w ++
       [SetFormState
          {| isSubmitting := isSubmitting (formState w);
             isSuccess := isSuccess (formState w);
             error := Some (lit "Please enter a valid email address") |}]
  /\ formData (snd (validateForm w)) = formData w
  /\ inflight (snd (validateForm w)) = inflight w.
Proof.
  intros Hn He _ Hs.
  destruct (validateForm_cases w)
    as [(Bn & E)|[(Bn & Be & E)|[(Bn & Be & S & E)
       |[(Bn & S & Bm & E)|(Bn & S & Bm & E)]]]];
    try contradiction.
  rewrite E. apply (showError_rejectedWith EMAIL_INVALID w).
Qed.

Lemma email_format_error_witness :
  fst (validateForm noAtSign) = false
  /\ error (formState (snd (validateForm noAtSign)))
     = Some (lit "Please enter a valid email address").
Proof.
  destruct (email_format_error noAtSign) as (F & S & _).
  - intros B. vm_compute in B. discriminate B.
  - intros B. vm_compute in B. discriminate B.
  - intros B. vm_compute in B. discriminate B.
  - intros S. apply emailShaped_test in S. vm_compute in S. discriminate S.
  - split; [exact F|]. rewrite S. reflexivity.
Defined.

(** ** Submission *)

Ltac flatten_trace := rewrite <- ?app_assoc; simpl app.

Lemma toasts_app a b : toasts (a ++ b) = toasts a ++ toasts b.
Proof. apply flat_map_app. Qed.

Lemma fetches_app a b : fetches (a ++ b) = fetches a ++ fetches b.
Proof. apply flat_map_app. Qed.

Lemma stored_app a b : stored (a ++ b) = stored a ++ stored b.
Proof. apply flat_map_app. Qed.

Lemma validates_firstFailure w :
  result validateForm w = true <-> firstFailure (formData w) = None.
Proof.
  unfold result. rewrite validateForm_firstFailure.
  destruct (firstFailure (formData w)); simpl; split; congruence.
Qed.

Lemma fails_firstFailure w :
  result validateForm w = false ->
  exists c, firstFailure (formData w) = Some c.
Proof.
  unfold result. rewrite validateForm_firstFailure.
  destruct (firstFailure (formData w)) as [c|]; simpl; [eauto | discriminate].
Qed.

Lemma handleSubmit_begin_passes w :
  result validateForm w = true -> handleSubmit_begin w = (true, suspended w).
Proof.
  intros V. apply validates_firstFailure in V.
  unfold handleSubmit_begin, bind, emit.
  rewrite validateForm_firstFailure. simpl formData. rewrite V. simpl.
  unfold suspended, setFormState, readFormData, fetch, ret. simpl.
  flatten_trace. reflexivity.
Qed.

Lemma handleSubmit_begin_fails w c :
  firstFailure (formData w) = Some c ->
  handleSubmit_begin w =
    (false, showError (failureMessage c) (exec (emit PreventDefault) w)).
Proof.
  intros V. unfold handleSubmit_begin, bind, emit, exec.
  rewrite validateForm_firstFailure. simpl formData. rewrite V. reflexivity.
Qed.

Lemma handleSubmit_passes o w :
  result validateForm w = true ->
  handleSubmit o w = handleSubmit_resume o (suspended w).
Proof.
  intros V. unfold handleSubmit, bind.
  rewrite (handleSubmit_begin_passes w V). reflexivity.
Qed.

Lemma ok_2xx r : ok r = true <-> (200 <= status r <= 299)%N.
Proof. unfold ok. rewrite andb_true_iff, !N.leb_le. tauto. Qed.

(** C2. For a form that passes validation and a response with a 2xx status
    and a body that parses as JSON, [handleSubmit] ends in the state
    [{isSubmitting: false, isSuccess: true, error: null}] with the form
    cleared to empty strings; on the way it stores Submitting, issues the
    request, stores Success, and calls the toast once, with the success
    message. *)
Theorem handleSubmit_success (w : World) (response : Response) (v : JsonValue) :
  result validateForm w = true ->
  (200 <= status response <= 299)%N ->
  json response = Fulfilled v ->
  let w' := exec (handleSubmit (Fulfilled response)) w in
  formState w' =
    {| isSubmitting := false; isSuccess := true; error := None |}
  /\ formData w' = {| name := []; email := []; message := [] |}
  /\ trace w' = trace w ++
       [PreventDefault; SetFormState submitting;
        Fetch (submitRequest (formData w));
        SetFormState succeeded; ToastCall successToast;
        SetFormData emptyForm]
  /\ toasts (trace w') = toasts (trace w) ++ [successToast]
  /\ inflight w' = inflight w.
Proof.
  intros V Hok Hjson. apply ok_2xx in Hok.
  unfold exec. rewrite (handleSubmit_passes _ w V).
  unfold handleSubmit_resume, tryBlock, bind, await_fetch.
  rewrite Hok, Hjson. simpl. flatten_trace.
  repeat split.
  rewrite toasts_app. reflexivity.
Qed.

Lemma handleSubmit_success_witness :
  let w' := exec (handleSubmit (Fulfilled okResponse)) (freshWorld annForm) in
  formState w' = succeeded /\ formData w' = emptyForm
  /\ toasts (trace w') = [successToast].
Proof.
  destruct (handleSubmit_success (freshWorld annForm) okResponse (JObject []))
    as (S & D & _ & T & _);
    [reflexivity | simpl; lia | reflexivity |].
  simpl. repeat split; assumption.
Defined.

Lemma handleSubmit_resume_thrown o w :
  handleSubmit_resume o w =
  (tt, match thrown o with
       | Some e => afterFailure e w
       | None => afterSuccess w
       end).
Proof.
  unfold handleSubmit_resume, tryBlock, thrown, bind, await_fetch.
  destruct o as [r|e]; [destruct (ok r); [destruct (json r)|]|];
    unfold afterSuccess, afterFailure, catchBlock, console_error, toast,
      emit, setFormState, setFormData, bind, ret; simpl;
    flatten_trace; reflexivity.
Qed.

Lemma fetchFails_thrown o : fetchFails o -> exists e, thrown o = Some e.
Proof.
  destruct o as [r|e]; simpl; [|eauto].
  intros [H|[e H]].
  - destruct (ok r) eqn:E; [apply ok_2xx in E; contradiction | eauto].
  - rewrite H. destruct (ok r); eauto.
Qed.

Lemma handleSubmit_fails w o :
  result validateForm w = true -> fetchFails o ->
  exists e, thrown o = Some e /\
            exec (handleSubmit o) w = afterFailure e (suspended w).
Proof.
  intros V F. destruct (fetchFails_thrown o F) as [e E]. exists e.
  split; [exact E|]. unfold exec.
  rewrite (handleSubmit_passes o w V), handleSubmit_resume_thrown, E.
  reflexivity.
Qed.

(** C3. For a form that passes validation, whether the request throws,
    comes back with a status outside 200..299 or with a body that does not
    parse, [handleSubmit] ends in the state [{isSubmitting: false,
    isSuccess: false, error: "Failed to send message. Please try again
    later."}] and leaves the form as it was entered. The three outcomes
    differ only in the exception written to the console: state, form, toast
    and request are the same. *)
Theorem handleSubmit_failure (w : World) (o : Settled Response) :
  result validateForm w = true ->
  fetchFails o ->
  let w' := exec (handleSubmit o) w in
  formState w' =
    {| isSubmitting := false; isSuccess := false;
       error := Some (lit "Failed to send message. Please try again later.") |}
  /\ formData w' = formData w
  /\ (exists e, trace w' = trace w ++
        [PreventDefault; SetFormState submitting;
         Fetch (submitRequest (formData w));
         ConsoleError (lit "Form submission error:") e;
         SetFormState (failed SEND_FAILED); ToastCall failureToast])
  /\ (forall o', fetchFails o' ->
        let w'' := exec (handleSubmit o') w in
        formState w'' = formState w' /\ formData w'' = formData w'
        /\ toasts (trace w'') = toasts (trace w')
        /\ fetches (trace w'') = fetches (trace w')
        /\ stored (trace w'') = stored (trace w')).
Proof.
  intros V F. destruct (handleSubmit_fails w o V F) as (e & _ & E).
  cbv zeta. rewrite E.
  split; [reflexivity|]. split; [reflexivity|]. split.
  - exists e. unfold afterFailure, suspended. simpl. flatten_trace.
    reflexivity.
  - intros o' F'. destruct (handleSubmit_fails w o' V F') as (e' & _ & E').
    rewrite E'. simpl trace. rewrite !toasts_app, !fetches_app, !stored_app.
    repeat split.
Qed.

Lemma handleSubmit_failure_witness :
  formState (exec (handleSubmit (Fulfilled serverError)) (freshWorld annForm))
    = failed SEND_FAILED
  /\ formData (exec (handleSubmit (Rejected (TypeError (lit "Failed to fetch"))))
                    (freshWorld annForm)) = annForm
  /\ formState (exec (handleSubmit (Fulfilled notJson)) (freshWorld annForm))
    = failed SEND_FAILED.
Proof.
  assert (V : result validateForm (freshWorld annForm) = true) by reflexivity.
  assert (F1 : fetchFails (Fulfilled serverError)) by (left; simpl; lia).
  assert (F2 : fetchFails (Rejected (TypeError (lit "Failed to fetch"))))
    by exact I.
  assert (F3 : fetchFails (Fulfilled notJson))
    by (right; eexists; reflexivity).
  split; [|split].
  - exact (proj1 (handleSubmit_failure _ _ V F1)).
  - exact (proj1 (proj2 (handleSubmit_failure _ _ V F2))).
  - exact (proj1 (handleSubmit_failure _ _ V F3)).
Defined.

Lemma handleSubmit_returns_early w o c :
  firstFailure (formData w) = Some c ->
  returnedEarly (failureMessage c) w (exec (handleSubmit o) w).
Proof.
  intros V. unfold exec, handleSubmit, bind.
  rewrite (handleSubmit_begin_fails w c V).
  unfold returnedEarly, showError, exec, emit. simpl. flatten_trace.
  rewrite fetches_app. simpl. rewrite app_nil_r. repeat split.
Qed.

Lemma blank_name_firstFailure d :
  forallb isWhiteSpace (name d) = true ->
  firstFailure d = Some nameEmptiness.
Proof.
  intros B. apply blank_trim in B.
  unfold firstFailure, checks. simpl. rewrite B. reflexivity.
Qed.

(** C4. When the name is empty or white space only, [handleSubmit] stores
    the error "Name is required" and returns: no request is issued and
    [isSubmitting] is not written. More generally, whenever validation
    fails, [handleSubmit] returns right after storing the failing check's
    message, before the Submitting state is stored and before [fetch] is
    called; where the submit control is enabled [isSubmitting] is false
    before and after. *)
Theorem handleSubmit_validation_fails (w : World) (o : Settled Response) :
  let w' := exec (handleSubmit o) w in
  (forallb isWhiteSpace (name (formData w)) = true ->
     result validateForm w = false
     /\ error (formState w') = Some (lit "Name is required")
     /\ returnedEarly (lit "Name is required") w w')
  /\ (result validateForm w = false ->
      (exists c, In c checks /\ returnedEarly (failureMessage c) w w')
      /\ (enabled Submit w = true ->
          Forall (fun st => isSubmitting st = false)
                 (formState w :: skipn (List.length (stored (trace w)))
                                       (stored (trace w'))))).
Proof.
  cbv zeta. split.
  - intros B. apply blank_name_firstFailure in B.
    pose proof (handleSubmit_returns_early w o nameEmptiness B) as R.
    split; [|split].
    + unfold result. rewrite validateForm_firstFailure, B. reflexivity.
    + destruct R as (_ & S & _). rewrite S. reflexivity.
    + exact R.
  - intros V. destruct (fails_firstFailure w V) as [c C].
    pose proof (handleSubmit_returns_early w o c C) as R. split.
    + exists c. split; [|exact R].
      apply (find_some _ _ C).
    + intros En. destruct R as (T & _).
      rewrite T, stored_app, skipn_app, skipn_all, Nat.sub_diag. simpl.
      assert (S : isSubmitting (formState w) = false).
      { unfold enabled, render in En.
        destruct (isSuccess (formState w)); [discriminate|]. simpl in En.
        now apply negb_true_iff in En. }
      repeat constructor; assumption.
Qed.

Lemma handleSubmit_validation_fails_witness :
  error (formState (exec (handleSubmit (Fulfilled okResponse)) blankName))
    = Some (lit "Name is required")
  /\ fetches (trace (exec (handleSubmit (Fulfilled okResponse)) blankName)) = [].
Proof.
  destruct (handleSubmit_validation_fails blankName (Fulfilled okResponse))
    as [N G].
  destruct N as (V & E & _); [reflexivity|].
  destruct (G V) as [(c & _ & R) _].
  split; [exact E|]. apply R.
Defined.

Lemma handleSubmit_resume_fetches o w :
  fetches (trace (exec (handleSubmit_resume o) w)) = fetches (trace w).
Proof.
  unfold exec. rewrite handleSubmit_resume_thrown.
  destruct (thrown o); simpl; rewrite fetches_app; simpl; apply app_nil_r.
Qed.

Lemma decodeSubmission_body d :
  decodeSubmission (body (submitRequest d)) = Some d.
Proof.
  unfold decodeSubmission, submitRequest, ownProperties. simpl body.
  rewrite readThreeMembers_JSON_stringify. destruct d; reflexivity.
Qed.

(** Forms that differ in any code unit are sent as different bodies. *)
Lemma submitRequest_injective d1 d2 :
  body (submitRequest d1) = body (submitRequest d2) -> d1 = d2.
Proof.
  intros E. apply (f_equal decodeSubmission) in E.
  rewrite !decodeSubmission_body in E. now injection E.
Qed.

(** C9. For a form that passes validation, [handleSubmit] calls [fetch]
    exactly once, however the request settles: with the path
    [/.netlify/functions/submit], the method POST, the one header
    [Content-Type: application/json], and as body the JSON text of the
    object with the properties name, email and message holding the three
    fields as they are in the form; read back, the body gives the form code
    unit for code unit. *)
Theorem handleSubmit_request (w : World) (o : Settled Response) :
  result validateForm w = true ->
  exists req,
    fetches (trace (exec (handleSubmit o) w)) = fetches (trace w) ++ [req]
    /\ url req = lit "/.netlify/functions/submit"
    /\ method req = lit "POST"
    /\ headers req = [(lit "Content-Type", lit "application/json")]
    /\ body req = JSON_stringify [(lit "name", name (formData w));
                                  (lit "email", email (formData w));
                                  (lit "message", message (formData w))]
    /\ decodeSubmission (body req) = Some (formData w).
Proof.
  intros V. exists (submitRequest (formData w)). split.
  - unfold exec. rewrite (handleSubmit_passes o w V).
    fold (exec (handleSubmit_resume o) (suspended w)).
    rewrite handleSubmit_resume_fetches. simpl. rewrite fetches_app.
    reflexivity.
  - repeat split. apply decodeSubmission_body.
Qed.

Lemma handleSubmit_request_witness :
  exists req,
    fetches (trace (exec (handleSubmit (Fulfilled okResponse))
                         (freshWorld annForm))) = [req]
    /\ body req =
       lit "{" ++ [QUOTE] ++ lit "name" ++ [QUOTE] ++ lit ":"
       ++ [QUOTE] ++ lit "Ann" ++ [QUOTE] ++ lit ","
       ++ [QUOTE] ++ lit "email" ++ [QUOTE] ++ lit ":"
       ++ [QUOTE] ++ lit "ann@example.org" ++ [QUOTE] ++ lit ","
       ++ [QUOTE] ++ lit "message" ++ [QUOTE] ++ lit ":"
       ++ [QUOTE] ++ lit " hello there " ++ [QUOTE] ++ lit "}".
Proof.
  destruct (handleSubmit_request (freshWorld annForm) (Fulfilled okResponse))
    as (req & F & _ & _ & _ & B & _); [reflexivity|].
  exists req. split; [exact F|]. rewrite B. reflexivity.
Defined.

(** ** Reachable worlds *)

Lemma check_message_known c : In c checks -> In (failureMessage c) errorMessages.
Proof.
  unfold checks. simpl.
  intros [<-|[<-|[<-|[<-|[]]]]]; simpl; auto 6.
Qed.

Lemma send_failed_known : knownError (Some SEND_FAILED).
Proof. simpl. auto 6. Qed.

Lemma firstFailure_known d c :
  firstFailure d = Some c -> knownError (Some (failureMessage c)).
Proof.
  intros H. apply check_message_known. exact (proj1 (find_some _ _ H)).
Qed.

Lemma handleInputChange_exec e w :
  exec (handleInputChange e) w =
  let d := assign (target_name e) (target_value e) (formData w) in
  if truthy_opt (error (formState w)) then
    {| formData := d; formState := with_error None (formState w);
       inflight := inflight w;
       trace := trace w ++
                [SetFormData d; SetFormState (with_error None (formState w))] |}
  else
    {| formData := d; formState := formState w; inflight := inflight w;
       trace := trace w ++ [SetFormData d] |}.
Proof.
  unfold exec, handleInputChange, bind, setFormData, readFormState. simpl.
  destruct (truthy_opt (error (formState w))); simpl;
    flatten_trace; reflexivity.
Qed.

Lemma invariant_mount : invariant mount.
Proof.
  split; simpl; try constructor; try discriminate; reflexivity.
Qed.

Lemma enabled_change e w :
  enabled (Change e) w = true ->
  isSuccess (formState w) = false /\ isSubmitting (formState w) = false.
Proof.
  unfold enabled, render.
  destruct (isSuccess (formState w)); simpl; [discriminate|].
  destruct (target_name e); simpl; intros H; apply negb_true_iff in H; auto.
Qed.

Lemma enabled_submit w :
  enabled Submit w = true ->
  isSuccess (formState w) = false /\ isSubmitting (formState w) = false.
Proof.
  unfold enabled, render.
  destruct (isSuccess (formState w)); simpl; [discriminate|].
  intros H; apply negb_true_iff in H; auto.
Qed.

Lemma enabled_reset w :
  enabled Reset w = true -> isSuccess (formState w) = true.
Proof.
  unfold enabled, render.
  destruct (isSuccess (formState w)); simpl; [reflexivity | discriminate].
Qed.

Lemma Forall_snoc {A} (P : A -> Prop) l x :
  Forall P l -> P x -> Forall P (l ++ [x]).
Proof. intros. apply Forall_app. split; [assumption | repeat constructor; assumption]. Qed.

Section Preservation.

Variable w : World.
Hypothesis I : invariant w.

Lemma invariant_change e :
  enabled (Change e) w = true -> invariant (exec (handleInputChange e) w).
Proof.
  intros En. destruct (enabled_change e w En) as [_ Sub].
  destruct I as [Ie Is _ Il].
  rewrite handleInputChange_exec. cbv zeta.
  destruct (truthy_opt (error (formState w))); split; simpl;
    rewrite ?stored_app; simpl; rewrite ?app_nil_r;
    try exact I; try congruence; auto.
  apply Forall_snoc; simpl; auto.
Qed.

Lemma invariant_showError c :
  firstFailure (formData w) = Some c ->
  invariant (showError (failureMessage c) w).
Proof.
  intros C. pose proof (firstFailure_known _ _ C) as K.
  destruct I as [Ie Is Isub Il].
  split; simpl.
  - exact K.
  - rewrite stored_app. simpl. apply Forall_snoc; simpl; auto.
  - intros S. destruct (Isub S) as (_ & _ & V). congruence.
  - exact Il.
Qed.

Lemma invariant_validate : invariant (exec validateForm w).
Proof.
  unfold exec. rewrite validateForm_firstFailure.
  destruct (firstFailure (formData w)) as [c|] eqn:C; simpl.
  - now apply invariant_showError.
  - exact I.
Qed.

Lemma invariant_submit :
  enabled Submit w = true -> invariant (exec handleSubmit_begin w).
Proof.
  intros En. destruct (enabled_submit w En) as [_ Sub].
  destruct I as [Ie Is Isub Il]. unfold exec.
  destruct (firstFailure (formData w)) as [c|] eqn:C.
  - rewrite (handleSubmit_begin_fails w c C).
    pose proof (firstFailure_known _ _ C) as K.
    split; simpl; auto; try congruence.
    flatten_trace. rewrite stored_app. simpl. apply Forall_snoc; simpl; auto.
  - rewrite (handleSubmit_begin_passes w (proj2 (validates_firstFailure w) C)).
    split; simpl; auto; try discriminate.
    rewrite stored_app. simpl. apply Forall_snoc; simpl; auto.
Qed.

Lemma invariant_settle o :
  enabled (Settle o) w = true -> invariant (exec (handleSubmit_resume o) w).
Proof.
  simpl. intros En. apply Nat.ltb_lt in En.
  destruct I as [Ie Is Isub Il].
  destruct (isSubmitting (formState w)) eqn:Sub;
    [|rewrite (Il eq_refl) in En; lia].
  destruct (Isub eq_refl) as (_ & One & _).
  unfold exec. rewrite handleSubmit_resume_thrown.
  destruct (thrown o); split; simpl; rewrite ?One; auto; try discriminate;
    try exact send_failed_known;
    rewrite stored_app; simpl; apply Forall_app; split; trivial;
    repeat constructor; exact send_failed_known.
Qed.

Lemma invariant_reset :
  enabled Reset w = true -> invariant (exec handleReset w).
Proof.
  intros En. apply enabled_reset in En.
  destruct I as [Ie Is Isub Il].
  destruct (isSubmitting (formState w)) eqn:Sub.
  - destruct (Isub eq_refl) as (St & _). rewrite St in En. discriminate.
  - split; simpl; auto; try discriminate.
    rewrite stored_app. simpl. apply Forall_snoc; simpl; auto.
Qed.

Lemma invariant_dispatch ev :
  enabled ev w = true -> invariant (dispatch ev w).
Proof.
  destruct ev; simpl dispatch; intros En.
  - now apply invariant_change.
  - now apply invariant_submit.
  - apply invariant_validate.
  - now apply invariant_settle.
  - now apply invariant_reset.
Qed.

End Preservation.

Lemma reachable_invariant w : reachable w -> invariant w.
Proof.
  induction 1 as [|ev w R IH En].
  - exact invariant_mount.
  - now apply invariant_dispatch.
Qed.

Lemma run_reachable evs : forall w w',
  reachable w -> run evs w = Some w' -> reachable w'.
Proof.
  induction evs as [|ev evs IH]; simpl; intros w w' R H.
  - now inversion H; subst.
  - destruct (enabled ev w) eqn:En; [|discriminate].
    eapply IH; [|exact H]. now constructor.
Qed.

Lemma known_error_truthy e :
  knownError e -> truthy_opt e = match e with Some _ => true | None => false end.
Proof.
  destruct e as [m|]; [|reflexivity]. simpl.
  intros [<-|[<-|[<-|[<-|[<-|[]]]]]]; reflexivity.
Qed.

Lemma known_error_cases e :
  knownError e ->
  In e [None; Some (lit "Name is required"); Some (lit "Email is required");
        Some (lit "Please enter a valid email address");
        Some (lit "Message is required");
        Some (lit "Failed to send message. Please try again later.")].
Proof.
  destruct e as [m|]; simpl; [|auto].
  intros [<-|[<-|[<-|[<-|[<-|[]]]]]]; auto 7.
Qed.

(** C6. In every state the component can reach from its initial state by
    field changes, validations, submissions, settlements of the request
    (whatever the outcome) and resets, [isSubmitting] and [isSuccess] are not
    both true, and [error] is null whenever [isSubmitting] is true. *)
Theorem reachable_flags (w : World) :
  reachable w ->
  ~ (isSubmitting (formState w) = true /\ isSuccess (formState w) = true)
  /\ (isSubmitting (formState w) = true -> error (formState w) = None).
Proof.
  intros R. destruct (reachable_invariant w R) as [_ _ Isub _]. split.
  - intros [S T]. destruct (Isub S) as (E & _). rewrite E in T. discriminate.
  - intros S. destruct (Isub S) as (E & _). rewrite E. reflexivity.
Qed.

Lemma annWaiting_reachable : reachable annWaiting.
Proof.
  unfold annWaiting, annTyped.
  repeat (apply reachable_step; [|reflexivity]). apply reachable_mount.
Defined.

Lemma bobRejected_reachable : reachable bobRejected.
Proof.
  unfold bobRejected.
  repeat (apply reachable_step; [|reflexivity]). apply reachable_mount.
Defined.

Lemma reachable_flags_witness :
  isSubmitting (formState annWaiting) = true
  /\ error (formState annWaiting) = None.
Proof.
  split; [reflexivity|].
  apply (reachable_flags annWaiting annWaiting_reachable). reflexivity.
Defined.

(** C7. A change event on the field [f] with the value [v] sets that field
    of the form to [v] and leaves the other two as they were. If [error] was
    not null it becomes null, with [isSubmitting] and [isSuccess] unchanged;
    if it was null the state is not touched: the only setter called is the
    one of the form. *)
Theorem handleInputChange_frame (w : World) (f : Field) (v : jsstring) :
  reachable w ->
  let w' := exec (handleInputChange {| target_name := f; target_value := v |}) w in
  field f (formData w') = v
  /\ (forall g, g <> f -> field g (formData w') = field g (formData w))
  /\ (error (formState w) <> None ->
      error (formState w') = None
      /\ isSubmitting (formState w') = isSubmitting (formState w)
      /\ isSuccess (formState w') = isSuccess (formState w))
  /\ (error (formState w) = None ->
      formState w' = formState w
      /\ trace w' = trace w ++ [SetFormData (formData w')]).
Proof.
  intros R. destruct (reachable_invariant w R) as [Ie _ _ _].
  cbv zeta. rewrite handleInputChange_exec. cbv zeta.
  rewrite (known_error_truthy _ Ie). simpl target_name. simpl target_value.
  split; [|split; [|split]].
  - destruct (error (formState w)), f; reflexivity.
  - intros g G. destruct (error (formState w)), f, g; try reflexivity;
      contradiction.
  - intros E. destruct (error (formState w)); [|contradiction].
    repeat split.
  - intros E. rewrite E. split; reflexivity.
Qed.

Lemma handleInputChange_frame_witness :
  let w' := exec (handleInputChange {| target_name := EmailField;
                                       target_value := lit "bob@example.org" |})
                 bobRejected in
  formData w' = {| name := lit "Bob"; email := lit "bob@example.org";
                   message := [] |}
  /\ error (formState bobRejected) = Some (lit "Email is required")
  /\ error (formState w') = None.
Proof.
  destruct (handleInputChange_frame bobRejected EmailField
              (lit "bob@example.org") bobRejected_reachable)
    as (_ & _ & C & _).
  split; [reflexivity|]. split; [reflexivity|].
  apply C. discriminate.
Defined.

(** C8. In every reachable state with [isSubmitting] true the form is what
    is rendered, with the three controls and the submit button disabled, so
    neither a change nor a submit event can reach its handler; and in every
    reachable state at most one request is in flight. *)
Theorem submitting_disables_controls (w : World) :
  reachable w ->
  (inflight w <= 1)%nat
  /\ (isSubmitting (formState w) = true ->
      (exists a n e m b,
          render (formData w) (formState w) = FormCard a n e m b
          /\ input_disabled n = true /\ input_disabled e = true
          /\ input_disabled m = true /\ button_disabled b = true)
      /\ enabled Submit w = false
      /\ (forall e, enabled (Change e) w = false)
      /\ enabled Reset w = false).
Proof.
  intros R. destruct (reachable_invariant w R) as [_ _ Isub Il]. split.
  - destruct (isSubmitting (formState w)).
    + destruct (Isub eq_refl) as (_ & One & _). lia.
    + rewrite (Il eq_refl). lia.
  - intros S. destruct (Isub S) as (E & _).
    unfold enabled, render. rewrite E. simpl. repeat split.
    + do 5 eexists. split; [reflexivity|]. simpl. auto.
    + intros e. destruct (target_name e); reflexivity.
Qed.

Lemma submitting_disables_controls_witness :
  isSubmitting (formState annWaiting) = true
  /\ enabled Submit annWaiting = false
  /\ (inflight annWaiting <= 1)%nat.
Proof.
  destruct (submitting_disables_controls annWaiting annWaiting_reachable)
    as (L & D).
  destruct D as (_ & S & _); [reflexivity|].
  split; [reflexivity|]. split; assumption.
Defined.

(** C10. In every reachable state [error] is null or one of the five
    messages of the component, and so is the [error] of every state a setter
    ever stored. When the status is not 2xx the exception carrying the
    status goes to the console, and what is stored is the general message. *)
Theorem reachable_error_messages (w : World) :
  reachable w ->
  let messages :=
    [None; Some (lit "Name is required"); Some (lit "Email is required");
     Some (lit "Please enter a valid email address");
     Some (lit "Message is required");
     Some (lit "Failed to send message. Please try again later.")] in
  In (error (formState w)) messages
  /\ Forall (fun st => In (error st) messages) (stored (trace w))
  /\ (forall r, ok r = false ->
        let w' := exec (handleSubmit_resume (Fulfilled r)) w in
        trace w' = trace w ++
          [ConsoleError (lit "Form submission error:")
             (Error (lit "HTTP error! status: " ++ Number_toString (status r)));
           SetFormState (failed SEND_FAILED); ToastCall failureToast]
        /\ error (formState w') =
           Some (lit "Failed to send message. Please try again later.")).
Proof.
  intros R. destruct (reachable_invariant w R) as [Ie Is _ _].
  cbv zeta. split; [|split].
  - now apply known_error_cases.
  - eapply Forall_impl; [|exact Is]. intros st. apply known_error_cases.
  - intros r Hr. unfold exec. rewrite handleSubmit_resume_thrown.
    unfold thrown. rewrite Hr. split; reflexivity.
Qed.

Lemma reachable_error_messages_witness :
  error (formState bobRejected) = Some (lit "Email is required")
  /\ In (error (formState bobRejected))
       [None; Some (lit "Name is required"); Some (lit "Email is required");
        Some (lit "Please enter a valid email address");
        Some (lit "Message is required");
        Some (lit "Failed to send message. Please try again later.")].
Proof.
  split; [reflexivity|].
  apply (reachable_error_messages bobRejected bobRejected_reachable).
Defined.

(** The invariants rest on the disabled controls: if a change and a submit
    event did reach their handlers while a request is in flight, an error
    would be stored next to [isSubmitting]. *)
Remark handlers_rely_on_disabled_controls :
  let w := dispatch Submit
             (dispatch (Change {| target_name := NameField;
                                  target_value := [] |}) annWaiting) in
  enabled Submit annWaiting = false
  /\ isSubmitting (formState w) = true
  /\ error (formState w) = Some NAME_REQUIRED.
Proof. repeat split. Qed.

(** ** The ledger of effects *)

Lemma logged_app a b : logged (a ++ b) = logged a ++ logged b.
Proof. apply flat_map_app. Qed.

Section Ledger.

Variable w : World.
Hypothesis L : ledger w.

(** A step that neither fetches, toasts nor logs, and that keeps the
    number of pending requests. *)
Lemma ledger_quiet w' extra :
  trace w' = trace w ++ extra ->
  fetches extra = [] -> toasts extra = [] -> logged extra = [] ->
  inflight w' = inflight w ->
  (isSuccess (formState w') = true -> formData w' = emptyForm) ->
  (isSubmitting (formState w') = true ->
   isSubmitting (formState w) = true /\ formData w' = formData w) ->
  ledger w'.
Proof.
  intros T F O G N S B. destruct L as [Lr Lt Lb Ll Ls Lx].
  split; rewrite ?T, ?fetches_app, ?toasts_app, ?logged_app, ?F, ?O, ?G,
    ?app_nil_r, ?N; auto.
  intros Sub. destruct (B Sub) as [Sub' ->]. auto.
Qed.

Lemma ledger_change e :
  enabled (Change e) w = true -> ledger (exec (handleInputChange e) w).
Proof.
  intros En. destruct (enabled_change e w En) as [Suc Sub].
  rewrite handleInputChange_exec. cbv zeta.
  destruct (truthy_opt (error (formState w)));
    (eapply ledger_quiet; [reflexivity | reflexivity..| |]); simpl;
    congruence.
Qed.

Lemma ledger_showError m : ledger (showError m w).
Proof.
  eapply ledger_quiet; [reflexivity | reflexivity..| |]; simpl.
  - apply L.
  - auto.
Qed.

Lemma ledger_validate : ledger (exec validateForm w).
Proof.
  unfold exec. rewrite validateForm_firstFailure.
  destruct (firstFailure (formData w)); simpl;
    [apply ledger_showError | exact L].
Qed.

Lemma ledger_reset : ledger (exec handleReset w).
Proof.
  eapply ledger_quiet; [reflexivity | reflexivity..| |]; simpl; discriminate.
Qed.

Lemma ledger_submit :
  enabled Submit w = true -> ledger (exec handleSubmit_begin w).
Proof.
  intros En. destruct (enabled_submit w En) as [Suc Sub]. unfold exec.
  destruct (firstFailure (formData w)) as [c|] eqn:C.
  - rewrite (handleSubmit_begin_fails w c C).
    eapply ledger_quiet with (extra := [PreventDefault; _]);
      [simpl; flatten_trace; reflexivity | reflexivity..| |]; simpl.
    + apply L.
    + congruence.
  - rewrite (handleSubmit_begin_passes w (proj2 (validates_firstFailure w) C)).
    destruct L as [Lr Lt Lb Ll Ls Lx].
    split; simpl; rewrite ?fetches_app, ?toasts_app, ?logged_app; simpl;
      rewrite ?app_nil_r, ?length_app; simpl; auto; try discriminate.
    + apply Forall_snoc; eauto.
    + rewrite Lb. lia.
    + eauto.
Qed.

Lemma ledger_settle o :
  enabled (Settle o) w = true -> ledger (exec (handleSubmit_resume o) w).
Proof.
  simpl. intros En. apply Nat.ltb_lt in En.
  destruct L as [Lr Lt Lb Ll Ls Lx].
  unfold exec. rewrite handleSubmit_resume_thrown.
  destruct (thrown o); split; simpl;
    rewrite ?fetches_app, ?toasts_app, ?logged_app; simpl;
    rewrite ?app_nil_r, ?filter_app, ?length_app; simpl;
    auto; try discriminate; try lia.
  - apply Forall_snoc; auto.
  - apply Forall_snoc; auto.
Qed.

Lemma ledger_dispatch ev : enabled ev w = true -> ledger (dispatch ev w).
Proof.
  destruct ev; simpl dispatch; intros En.
  - now apply ledger_change.
  - now apply ledger_submit.
  - apply ledger_validate.
  - now apply ledger_settle.
  - apply ledger_reset.
Qed.

End Ledger.

Lemma ledger_mount : ledger mount.
Proof.
  split; simpl; try constructor; try discriminate; reflexivity.
Qed.

Lemma reachable_ledger w : reachable w -> ledger w.
Proof.
  induction 1 as [|ev w R IH En].
  - exact ledger_mount.
  - now apply ledger_dispatch.
Qed.

(** ** What validation accepts *)

Lemma emailShaped_extend s pre post :
  emailShaped s -> emailShaped (pre ++ s ++ post).
Proof.
  intros (p & a & b & c & q & -> & H).
  exists (pre ++ p), a, b, c, (q ++ post). split; [|exact H].
  rewrite <- !app_assoc. reflexivity.
Qed.

Lemma accepts_iff d :
  firstFailure d = None <->
  ~ blank (name d) /\ emailShaped (email d) /\ ~ blank (message d).
Proof.
  unfold firstFailure, checks. simpl find.
  rewrite <- !not_blank_truthy, <- emailShaped_test.
  destruct (truthy (trim (name d))); simpl; [|split; [|intros (?&?&?)]; congruence].
  destruct (truthy (trim (email d))) eqn:E; simpl.
  - destruct (test emailPattern (email d)); simpl;
      [|split; [|intros (?&?&?)]; congruence].
    destruct (truthy (trim (message d))); simpl;
      split; try intros (?&?&?); auto; congruence.
  - split; [discriminate|]. intros (_ & T & _).
    apply emailShaped_test, emailShaped_not_blank, not_blank_truthy in T.
    congruence.
Qed.

(** X1. [validateForm] returns true exactly when the name and the message
    hold a code unit that is not white space and the email holds, somewhere,
    non-space code units, an [@], non-space code units, a dot and non-space
    code units. *)
Theorem validateForm_accepts (w : World) :
  result validateForm w = true <->
  ~ blank (name (formData w))
  /\ emailShaped (email (formData w))
  /\ ~ blank (message (formData w)).
Proof.
  rewrite validates_firstFailure. apply accepts_iff.
Qed.

(** X2. The pattern is not anchored: a form that passes validation still
    passes when any text, white space included, is put before and after its
    email. *)
Theorem validateForm_ignores_text_around_email (w w' : World)
        (pre post : jsstring) :
  result validateForm w = true ->
  formData w' =
    assign EmailField (pre ++ email (formData w) ++ post) (formData w) ->
  result validateForm w' = true.
Proof.
  rewrite !validates_firstFailure, !accepts_iff. intros (N & E & M) ->.
  simpl. auto using emailShaped_extend.
Qed.

Lemma validateForm_ignores_text_around_email_witness :
  result validateForm
    (freshWorld {| name := lit "Ann";
                   email := lit "write to " ++ lit "ann@example.org"
                            ++ lit " please";
                   message := lit " hello there " |}) = true.
Proof.
  apply (validateForm_ignores_text_around_email (freshWorld annForm)
           (freshWorld _) (lit "write to ") (lit " please"));
    reflexivity.
Defined.

Lemma validateForm_outcome w :
  result validateForm w = false ->
  exists c, firstFailure (formData w) = Some c
            /\ error (formState (exec validateForm w))
               = Some (failureMessage c).
Proof.
  intros V. destruct (fails_firstFailure w V) as [c C]. exists c.
  split; [exact C|]. unfold exec. rewrite validateForm_firstFailure, C.
  reflexivity.
Qed.

(** X3. A validation message names its cause. When [validateForm] fails,
    the message it stores is "Name is required" exactly when the name is
    blank; "Email is required" exactly when the name is not blank and the
    email is; "Please enter a valid email address" exactly when neither is
    blank and the email has no fragment of the shape asked for; "Message is
    required" exactly when the name is not blank, the email has such a
    fragment and the message is blank. *)
Theorem validateForm_message_names_cause (w : World) :
  result validateForm w = false ->
  let d := formData w in
  let shown := error (formState (exec validateForm w)) in
  (shown = Some (lit "Name is required") <-> blank (name d))
  /\ (shown = Some (lit "Email is required") <->
      ~ blank (name d) /\ blank (email d))
  /\ (shown = Some (lit "Please enter a valid email address") <->
      ~ blank (name d) /\ ~ blank (email d) /\ ~ emailShaped (email d))
  /\ (shown = Some (lit "Message is required") <->
      ~ blank (name d) /\ emailShaped (email d) /\ blank (message d)).
Proof.
  intros V. destruct (validateForm_outcome w V) as (c & C & E).
  cbv zeta. rewrite E. clear E V.
  unfold firstFailure, checks in C. simpl find in C.
  pose proof (not_blank_truthy (name (formData w))) as Hn.
  pose proof (not_blank_truthy (email (formData w))) as He.
  pose proof (not_blank_truthy (message (formData w))) as Hm.
  pose proof (emailShaped_test (email (formData w))) as Ht.
  pose proof (@emailShaped_not_blank (email (formData w))) as Hs.
  assert (Dn := blank_or_not (name (formData w))).
  assert (De := blank_or_not (email (formData w))).
  assert (Dm := blank_or_not (message (formData w))).
  destruct (truthy (trim (name (formData w)))); simpl in C;
    [destruct (truthy (trim (email (formData w)))); simpl in C;
     [destruct (test emailPattern (email (formData w))); simpl in C;
      [destruct (truthy (trim (message (formData w)))); simpl in C;
       [discriminate|]|]|]|];
    injection C as <-;
    (split; [|split; [|split]]);
    (split; [intros Q; try (vm_compute in Q; discriminate Q)
            | intros Q; try reflexivity]);
    intuition congruence.
Qed.

Lemma validateForm_message_names_cause_witness :
  error (formState (exec validateForm noAtSign))
    = Some (lit "Please enter a valid email address")
  /\ ~ emailShaped (email (formData noAtSign)).
Proof.
  destruct (validateForm_message_names_cause noAtSign) as (_ & _ & I & _);
    [reflexivity|].
  split; [reflexivity|]. apply I. reflexivity.
Defined.

(** ** What the user sees *)

(** X4. The controls are controlled. After a change event from an enabled
    control, that control is rendered with the value of the event, the
    other two controls are rendered as before, no alert is shown, and the
    submit button is enabled with the label "Send Message". *)
Theorem typed_value_is_displayed (w : World) (f : Field) (v : jsstring) :
  enabled (Change {| target_name := f; target_value := v |}) w = true ->
  let w' := dispatch (Change {| target_name := f; target_value := v |}) w in
  inputOf f (view w') =
    Some {| input_name := fieldName f; input_value := v;
            input_disabled := false |}
  /\ (forall g, g <> f -> inputOf g (view w') = inputOf g (view w))
  /\ alertOf (view w') = None
  /\ submitButtonOf (view w') =
     Some {| button_disabled := false; button_label := lit "Send Message" |}
  /\ enabled Submit w' = true.
Proof.
  intros En. destruct (enabled_change _ w En) as [Suc Sub].
  cbv zeta. simpl dispatch. rewrite handleInputChange_exec. cbv zeta.
  simpl target_name. simpl target_value.
  unfold enabled, view, render.
  destruct (truthy_opt (error (formState w))) eqn:T; simpl;
    rewrite Suc, Sub, ?T; simpl;
    (split; [|split; [|split; [|split]]]);
    unfold renderInput; simpl; rewrite ?Sub;
    try (destruct f; reflexivity);
    intros g G; destruct f, g; try reflexivity; contradiction.
Qed.

Lemma typed_value_is_displayed_witness :
  inputOf EmailField
    (view (dispatch (Change {| target_name := EmailField;
                               target_value := lit "bob@example.org" |})
                    bobRejected)) =
  Some {| input_name := lit "email"; input_value := lit "bob@example.org";
          input_disabled := false |}.
Proof.
  apply (typed_value_is_displayed bobRejected EmailField
           (lit "bob@example.org")).
  reflexivity.
Defined.

(** X5. The confirmation card is only ever shown over an emptied form with
    nothing in flight, and none of the form's events can occur under it. A
    click on "Send Another Message" then brings back the blank form: idle
    state, three empty enabled controls, no alert, no new request or
    toast. *)
Theorem reset_shows_blank_form (w : World) :
  reachable w ->
  view w = Confirmation ->
  (formData w = emptyForm /\ inflight w = 0%nat
   /\ enabled Submit w = false /\ (forall e, enabled (Change e) w = false)
   /\ enabled Reset w = true)
  /\ let w' := dispatch Reset w in
     formState w' = idle
     /\ view w' = blankFormCard
     /\ fetches (trace w') = fetches (trace w)
     /\ toasts (trace w') = toasts (trace w)
     /\ inflight w' = 0%nat.
Proof.
  intros R V.
  assert (Suc : isSuccess (formState w) = true).
  { unfold view, render in V. destruct (isSuccess (formState w));
      [reflexivity | discriminate]. }
  destruct (reachable_invariant w R) as [_ _ Isub Il].
  destruct (reachable_ledger w R) as [_ _ _ _ Ls _].
  assert (Sub : isSubmitting (formState w) = false).
  { destruct (isSubmitting (formState w)); [|reflexivity].
    destruct (Isub eq_refl) as (St & _). rewrite St in Suc. discriminate. }
  pose proof (Ls Suc) as D. pose proof (Il Sub) as N.
  split.
  - unfold enabled, render. rewrite Suc. repeat split; assumption.
  - cbv zeta. simpl dispatch. unfold exec, handleReset, setFormState.
    cbn [snd formState formData inflight trace view].
    rewrite D, fetches_app, toasts_app, !app_nil_r. repeat split. exact N.
Qed.

Lemma annSucceeded_reachable : reachable annSucceeded.
Proof.
  unfold annSucceeded, annWaiting, annTyped.
  repeat (apply reachable_step; [|reflexivity]). apply reachable_mount.
Defined.

Lemma annFailed_reachable : reachable annFailed.
Proof.
  unfold annFailed, annWaiting, annTyped.
  repeat (apply reachable_step; [|reflexivity]). apply reachable_mount.
Defined.

Lemma reset_shows_blank_form_witness :
  view annSucceeded = Confirmation
  /\ view (dispatch Reset annSucceeded) = blankFormCard.
Proof.
  split; [reflexivity|].
  apply (reset_shows_blank_form annSucceeded annSucceeded_reachable).
  reflexivity.
Defined.

(** ** What goes out *)

(** X6. The component never sends a form that fails validation. Every
    request a reachable world has issued is a POST to the submit function
    whose body reads back as a form on which [validateForm] returns true. *)
Theorem requests_carry_valid_forms (w : World) :
  reachable w ->
  Forall (fun req =>
            url req = lit "/.netlify/functions/submit"
            /\ method req = lit "POST"
            /\ exists d, decodeSubmission (body req) = Some d
                         /\ result validateForm (freshWorld d) = true)
         (fetches (trace w)).
Proof.
  intros R. destruct (reachable_ledger w R) as [Lr _ _ _ _ _].
  eapply Forall_impl; [|exact Lr].
  intros req (d & -> & V). split; [reflexivity|]. split; [reflexivity|].
  exists d. split; [apply decodeSubmission_body|].
  now apply validates_firstFailure.
Qed.

Lemma requests_carry_valid_forms_witness :
  fetches (trace annFailed) = [submitRequest (formData annFailed)]
  /\ Forall (fun req =>
               url req = lit "/.netlify/functions/submit"
               /\ method req = lit "POST"
               /\ exists d, decodeSubmission (body req) = Some d
                            /\ result validateForm (freshWorld d) = true)
            (fetches (trace annFailed)).
Proof.
  split; [reflexivity|].
  apply (requests_carry_valid_forms annFailed annFailed_reachable).
Defined.

(** X7. Requests and notifications balance. In every reachable world the
    number of requests issued is the number of toasts shown plus the number
    of requests still in flight; every toast is the success toast or the
    failure toast; and the console holds one error for each failure
    toast. *)
Theorem toasts_answer_requests (w : World) :
  reachable w ->
  List.length (fetches (trace w))
    = (List.length (toasts (trace w)) + inflight w)%nat
  /\ Forall (fun t => t = successToast \/ t = failureToast) (toasts (trace w))
  /\ List.length (logged (trace w))
     = List.length (filter destructive (toasts (trace w))).
Proof.
  intros R. destruct (reachable_ledger w R) as [_ Lt Lb Ll _ _].
  split; [exact Lb|]. split; [exact Lt | exact Ll].
Qed.

Lemma toasts_answer_requests_witness :
  toasts (trace annFailed) = [failureToast]
  /\ List.length (fetches (trace annFailed))
     = (List.length (toasts (trace annFailed)) + inflight annFailed)%nat.
Proof.
  split; [reflexivity|].
  apply (toasts_answer_requests annFailed annFailed_reachable).
Defined.

(** ** Sessions *)

(** X8. A failed submission can be retried as it is. When the request in
    flight fails (in any of the three ways), the form comes back with the
    user's entries in enabled controls under the alert "Failed to send
    message. Please try again later."; submitting again is enabled and
    issues a second request equal to the first. *)
Theorem failed_submission_can_be_retried (w : World) (o : Settled Response) :
  reachable w ->
  isSubmitting (formState w) = true ->
  fetchFails o ->
  enabled (Settle o) w = true
  /\ let w1 := dispatch (Settle o) w in
     view w1 =
       FormCard (Some (lit "Failed to send message. Please try again later."))
         {| input_name := lit "name"; input_value := name (formData w);
            input_disabled := false |}
         {| input_name := lit "email"; input_value := email (formData w);
            input_disabled := false |}
         {| input_name := lit "message"; input_value := message (formData w);
            input_disabled := false |}
         {| button_disabled := false; button_label := lit "Send Message" |}
     /\ enabled Submit w1 = true
     /\ let w2 := dispatch Submit w1 in
        formState w2 = submitting
        /\ inflight w2 = 1%nat
        /\ exists earlier,
             fetches (trace w) = earlier ++ [submitRequest (formData w)]
             /\ fetches (trace w2) =
                earlier ++ [submitRequest (formData w);
                            submitRequest (formData w)].
Proof.
  intros R Sub F.
  destruct (reachable_invariant w R) as [_ _ Isub _].
  destruct (Isub Sub) as (St & One & V).
  destruct (reachable_ledger w R) as [_ _ _ _ _ Lx].
  destruct (Lx Sub) as [earlier Last].
  destruct (fetchFails_thrown o F) as [e E].
  assert (H1 : dispatch (Settle o) w = afterFailure e w).
  { simpl. unfold exec. now rewrite handleSubmit_resume_thrown, E. }
  assert (H2 : dispatch Submit (afterFailure e w)
               = suspended (afterFailure e w)).
  { simpl. unfold exec. rewrite handleSubmit_begin_passes; [reflexivity|].
    apply validates_firstFailure. exact V. }
  split; [simpl; rewrite One; reflexivity|].
  cbv zeta. rewrite H1, H2.
  split; [reflexivity|]. split; [reflexivity|].
  split; [reflexivity|]. split; [simpl; rewrite One; reflexivity|].
  exists earlier. split; [exact Last|].
  simpl trace. rewrite !fetches_app, Last. cbn [fetches flat_map app].
  rewrite app_nil_r, <- app_assoc. reflexivity.
Qed.

Lemma failed_submission_can_be_retried_witness :
  enabled (Settle (Fulfilled serverError)) annWaiting = true
  /\ enabled Submit annFailed = true
  /\ formState (dispatch Submit annFailed) = submitting.
Proof.
  destruct (failed_submission_can_be_retried annWaiting (Fulfilled serverError)
              annWaiting_reachable)
    as (S & _ & E & T & _);
    [reflexivity | left; simpl; lia|].
  repeat split; assumption.
Defined.

Lemma dispatch_change_frame e w :
  let w' := dispatch (Change e) w in
  formData w' = assign (target_name e) (target_value e) (formData w)
  /\ isSuccess (formState w') = isSuccess (formState w)
  /\ isSubmitting (formState w') = isSubmitting (formState w)
  /\ inflight w' = inflight w
  /\ fetches (trace w') = fetches (trace w)
  /\ toasts (trace w') = toasts (trace w)
  /\ logged (trace w') = logged (trace w).
Proof.
  cbv zeta. simpl dispatch. rewrite handleInputChange_exec. cbv zeta.
  destruct (truthy_opt (error (formState w))); simpl;
    rewrite fetches_app, toasts_app, logged_app; simpl;
    rewrite !app_nil_r; repeat split.
Qed.

Lemma enabled_form_iff w :
  enabled Submit w = true <->
  isSuccess (formState w) = false /\ isSubmitting (formState w) = false.
Proof.
  split; [apply enabled_submit|]. intros [Suc Sub].
  unfold enabled, render. now rewrite Suc, Sub.
Qed.

Lemma enabled_change_submit e w :
  enabled (Change e) w = enabled Submit w.
Proof.
  unfold enabled, render. destruct (isSuccess (formState w)); simpl;
    [reflexivity|]. destruct (target_name e); reflexivity.
Qed.

Lemma change_keeps_form_enabled e w :
  enabled Submit w = true -> enabled Submit (dispatch (Change e) w) = true.
Proof.
  rewrite !enabled_form_iff.
  destruct (dispatch_change_frame e w) as (_ & -> & -> & _). trivial.
Qed.

(** ** What the handlers leave alone *)

(** X10. Only a submit event fetches; only a settling request toasts or
    writes to the console; only a change event and a settling request
    change the form; only a submit event and a settling request change the
    number of requests in flight. *)
Theorem events_keep_to_their_effects (ev : Event) (w : World) :
  let w' := dispatch ev w in
  match ev with
  | Submit => True
  | _ => fetches (trace w') = fetches (trace w)
  end
  /\ match ev with
     | Settle _ => True
     | _ => toasts (trace w') = toasts (trace w)
            /\ logged (trace w') = logged (trace w)
     end
  /\ match ev with
     | Change _ | Settle _ => True
     | _ => formData w' = formData w
     end
  /\ match ev with
     | Submit | Settle _ => True
     | _ => inflight w' = inflight w
     end.
Proof.
  cbv zeta. destruct ev as [e| | |o|].
  - destruct (dispatch_change_frame e w) as (_ & _ & _ & N & F & T & G).
    auto.
  - simpl dispatch. unfold exec.
    destruct (firstFailure (formData w)) as [c|] eqn:C.
    + rewrite (handleSubmit_begin_fails w c C). simpl.
      rewrite !toasts_app, !logged_app. simpl. rewrite !app_nil_r. auto.
    + rewrite (handleSubmit_begin_passes w (proj2 (validates_firstFailure w) C)).
      simpl. rewrite !toasts_app, !logged_app. simpl. rewrite !app_nil_r.
      auto.
  - simpl dispatch. unfold exec. rewrite validateForm_firstFailure.
    destruct (firstFailure (formData w)); simpl;
      rewrite ?fetches_app, ?toasts_app, ?logged_app; simpl;
      rewrite ?app_nil_r; auto.
  - split; [apply handleSubmit_resume_fetches | auto].
  - simpl. rewrite fetches_app, toasts_app, logged_app. simpl.
    rewrite !app_nil_r. auto.
Qed.

(** X11. Change events compose as writes to a record: of two changes to
    the same field the second wins, and changes to different fields
    commute; in both cases form and state are the same at the end. *)
Theorem changes_compose (w : World) (f g : Field) (v1 v2 : jsstring) :
  let change f v := dispatch (Change {| target_name := f; target_value := v |}) in
  (formData (change f v2 (change f v1 w)) = formData (change f v2 w)
   /\ formState (change f v2 (change f v1 w)) = formState (change f v2 w))
  /\ (f <> g ->
      formData (change g v2 (change f v1 w))
        = formData (change f v1 (change g v2 w))
      /\ formState (change g v2 (change f v1 w))
         = formState (change f v1 (change g v2 w))).
Proof.
  cbv beta zeta. cbn [dispatch]. rewrite !handleInputChange_exec.
  cbv zeta. simpl target_name. simpl target_value.
  destruct (truthy_opt (error (formState w))) eqn:T; simpl; rewrite ?T;
    (split; [split; destruct f; reflexivity|]);
    intros N; split; destruct f, g; try reflexivity; contradiction.
Qed.

Lemma changes_compose_witness :
  formData (dispatch (Change {| target_name := EmailField;
                                target_value := lit "b@c.de" |})
              (dispatch (Change {| target_name := NameField;
                                   target_value := lit "Bo" |}) bobRejected))
  = formData (dispatch (Change {| target_name := NameField;
                                  target_value := lit "Bo" |})
                (dispatch (Change {| target_name := EmailField;
                                     target_value := lit "b@c.de" |})
                   bobRejected)).
Proof.
  apply (changes_compose bobRejected NameField EmailField
           (lit "Bo") (lit "b@c.de")).
  discriminate.
Defined.

(** X12. The alert shows the stored error and never sits over a form that
    cannot be used: in a reachable world an alert with the text [m] is
    rendered exactly when the confirmation card is not shown and [error] is
    [m]; then [m] is one of the five messages, no request is in flight, and
    the three controls and the submit button are enabled. *)
Theorem alert_shows_stored_error (w : World) (m : jsstring) :
  reachable w ->
  (alertOf (view w) = Some m <->
   isSuccess (formState w) = false /\ error (formState w) = Some m)
  /\ (alertOf (view w) = Some m ->
      In m errorMessages
      /\ inflight w = 0%nat
      /\ enabled Submit w = true
      /\ forall e, enabled (Change e) w = true).
Proof.
  intros R. destruct (reachable_invariant w R) as [Ie _ Isub Il].
  pose proof (known_error_truthy _ Ie) as T.
  assert (A : alertOf (view w) = Some m <->
              isSuccess (formState w) = false /\ error (formState w) = Some m).
  { unfold view, render. destruct (isSuccess (formState w)); simpl.
    - split; [discriminate | intros [? _]; discriminate].
    - rewrite T. destruct (error (formState w)); split; intros; intuition;
        discriminate. }
  split; [exact A|]. intros H. apply A in H as [Suc E].
  assert (Sub : isSubmitting (formState w) = false).
  { destruct (isSubmitting (formState w)); [|reflexivity].
    destruct (Isub eq_refl) as (St & _). rewrite St in E. discriminate. }
  split; [rewrite E in Ie; exact Ie|]. split; [exact (Il Sub)|].
  assert (En : enabled Submit w = true) by (apply enabled_form_iff; auto).
  split; [exact En|]. intros e. now rewrite enabled_change_submit.
Qed.

Lemma alert_shows_stored_error_witness :
  alertOf (view bobRejected) = Some (lit "Email is required")
  /\ enabled Submit bobRejected = true.
Proof.
  destruct (alert_shows_stored_error bobRejected (lit "Email is required")
              bobRejected_reachable) as [_ U].
  split; [reflexivity|]. apply U. reflexivity.
Defined.

(** X13. While a request is in flight nothing moves until it settles: in a
    reachable world with [isSubmitting] true, an enabled event is either
    the settlement of the request or a validation, which changes nothing;
    and the settlement ends the submission, in the Success state over an
    emptied form or in the Error state over the form as it was, with no
    request left in flight. *)
Theorem in_flight_only_settles (w : World) (ev : Event) :
  reachable w ->
  isSubmitting (formState w) = true ->
  enabled ev w = true ->
  (ev = Validate /\ dispatch ev w = w)
  \/ (exists o, ev = Settle o
                /\ inflight (dispatch ev w) = 0%nat
                /\ ((formState (dispatch ev w) = succeeded
                     /\ formData (dispatch ev w) = emptyForm)
                    \/ (formState (dispatch ev w) = failed SEND_FAILED
                        /\ formData (dispatch ev w) = formData w))).
Proof.
  intros R Sub En.
  destruct (reachable_invariant w R) as [_ _ Isub _].
  destruct (Isub Sub) as (St & One & V).
  destruct ev as [e| | |o|].
  - apply enabled_change in En as [_ En]. congruence.
  - apply enabled_submit in En as [_ En]. congruence.
  - left. split; [reflexivity|]. simpl. unfold exec.
    rewrite validateForm_firstFailure, V. reflexivity.
  - right. exists o. split; [reflexivity|]. simpl dispatch. unfold exec.
    rewrite handleSubmit_resume_thrown.
    destruct (thrown o); simpl; rewrite One; auto.
  - apply enabled_reset in En. rewrite St in En. discriminate.
Qed.

Lemma in_flight_only_settles_witness :
  inflight (dispatch (Settle (Fulfilled notJson)) annWaiting) = 0%nat
  /\ dispatch Validate annWaiting = annWaiting.
Proof.
  split.
  - destruct (in_flight_only_settles annWaiting (Settle (Fulfilled notJson))
                annWaiting_reachable) as [[E _]|(o & E & N & _)];
      [reflexivity | reflexivity | discriminate E |].
    injection E as <-. exact N.
  - destruct (in_flight_only_settles annWaiting Validate
                annWaiting_reachable) as [[_ E]|(o & E & _)];
      [reflexivity | reflexivity | exact E | discriminate E].
Defined.
